(** * Tic-Tac-Toe on an N x N grid: the engine of [js/tictactoe.js]

    A shallow embedding of the game's global state and of the functions that
    read and write it ([initTicTacToe], [resetGame], [drop], [takeTurn],
    [updateVictoryConditions], [endTurn]), followed by the invariants of the
    states a page can reach and the properties of the specification. *)

From stdpp Require Import gmap strings list fin_maps pretty.
From Stdlib Require Import ZArith Lia.

Local Open Scope Z_scope.

(** ** Values *)

(** The numbers the program stores in [lineSums]: integers, and the [NaN]
    that [undefined + player] evaluates to. *)
Inductive num : Type :=
  | Num (z : Z)
  | NaN.

(** [a[i] + p] where [a[i]] may be a missing property ([undefined]). *)
Definition js_add (v : option num) (p : Z) : num :=
  match v with
  | Some (Num z) => Num (z + p)
  | _ => NaN
  end.

(** [Math.abs(a[i]) === n]; false on [NaN] and on [undefined]. *)
Definition abs_is (v : option num) (n : Z) : bool :=
  match v with
  | Some (Num z) => Z.abs z =? n
  | _ => false
  end.

(** Player properties. *)
Definition PLAYER_ONE : Z := 1.
Definition PLAYER_TWO : Z := -1.
Definition PLAYER_ONE_NAME : string := "Player 1".
Definition PLAYER_TWO_NAME : string := "Player 2".

(** The two draggable control images built by [createGameControls]; [drag]
    stores the id of the dragged one in the event's data transfer. *)
Inductive PieceId : Type :=
  | player_1
  | player_2.

Global Instance PieceId_eq_dec : EqDecision PieceId.
Proof. solve_decision. Defined.

Definition id_text (p : PieceId) : string :=
  match p with
  | player_1 => "player-1"
  | player_2 => "player-2"
  end.

(** ** The page *)

(** A board square: a [div] with its two coordinate attributes, its class
    name and the piece images appended to it. *)
Record Square : Type := mkSquare {
  data_x : Z;
  data_y : Z;
  className : string;
  childNodes : list PieceId
}.

(** What a drop can land on: the [i]-th square of the board, or a piece
    image lying inside a square (the event then bubbles to the square's
    listener with the image as its target). *)
Inductive Element : Type :=
  | Div (i : nat) (sq : Square)
  | Img.

Definition tagName (object : Element) : string :=
  match object with
  | Div _ _ => "DIV"
  | Img => "IMG"
  end.

Definition children (object : Element) : list PieceId :=
  match object with
  | Div _ sq => childNodes sq
  | Img => []
  end.

(** The globals of the script. [lineSums] is a JavaScript array: a property
    map keyed by index, where reading a missing index yields [undefined] and
    writing any index creates it. *)
Record State : Type := mkState {
  GRID_SIZE : Z;
  NUMBER_OF_SQUARES : Z;
  squares : list Square;
  lineSums : gmap Z num;
  message : string;
  gameOver : bool;
  victoryFlag : bool;
  currentPlayer : Z;
  turnCount : Z
}.

Definition set_message (m : string) (s : State) : State :=
  mkState (GRID_SIZE s) (NUMBER_OF_SQUARES s) (squares s) (lineSums s) m
          (gameOver s) (victoryFlag s) (currentPlayer s) (turnCount s).

Definition set_squares (sqs : list Square) (s : State) : State :=
  mkState (GRID_SIZE s) (NUMBER_OF_SQUARES s) sqs (lineSums s) (message s)
          (gameOver s) (victoryFlag s) (currentPlayer s) (turnCount s).

Definition set_victory (ls : gmap Z num) (v : bool) (s : State) : State :=
  mkState (GRID_SIZE s) (NUMBER_OF_SQUARES s) (squares s) ls (message s)
          (gameOver s) v (currentPlayer s) (turnCount s).

(** ** The functions of the script *)

Definition getPlayerName (player : Z) : string :=
  if player =? PLAYER_ONE then PLAYER_ONE_NAME else PLAYER_TWO_NAME.

Definition isOccupied (object : Element) : bool :=
  String.eqb (tagName object) "IMG" || (0 <? length (children object))%nat.

(** [lineSums[i] += player]. *)
Definition add_at (i player : Z) (ls : gmap Z num) : gmap Z num :=
  <[i := js_add (ls !! i) player]> ls.

Definition updateVictoryConditions (x y player : Z) (s : State) : State :=
  let n := GRID_SIZE s in
  let ls1 := add_at x player (lineSums s) in
  let ls2 := add_at (n + y) player ls1 in
  let v2 := abs_is (ls2 !! x) n || abs_is (ls2 !! (n + y)) n in
  let '(ls3, v3) :=
    if negb v2 && (x =? y)
    then let ls := add_at (n * 2) player ls2 in (ls, abs_is (ls !! (n * 2)) n)
    else (ls2, v2) in
  let '(ls4, v4) :=
    if negb v3 && (Z.abs (x - (n - 1)) =? y)
    then let ls := add_at (n * 2 + 1) player ls3 in
         (ls, abs_is (ls !! (n * 2 + 1)) n)
    else (ls3, v3) in
  set_victory ls4 v4 s.

(** [takeTurn] on a drop of the control image [text] onto the [i]-th square
    [sq]: the coordinates are read from the square's attributes, a copy of
    the image is appended to the square and the image's id to its class. *)
Definition takeTurn (i : nat) (sq : Square) (text : PieceId) (s : State) : State :=
  let x := data_x sq in
  let y := data_y sq in
  let piece := if String.eqb (id_text text) "player-1" then PLAYER_ONE else PLAYER_TWO in
  let sq' := mkSquare (data_x sq) (data_y sq)
                      (className sq +:+ " " +:+ id_text text)
                      (childNodes sq ++ [text]) in
  updateVictoryConditions x y piece (set_squares (<[i := sq']> (squares s)) s).

Definition endTurn (s : State) : State :=
  let tc := turnCount s + 1 in
  if victoryFlag s then
    mkState (GRID_SIZE s) (NUMBER_OF_SQUARES s) (squares s) (lineSums s)
            (getPlayerName (currentPlayer s) +:+ " wins!")
            true (victoryFlag s) (currentPlayer s) tc
  else if NUMBER_OF_SQUARES s <=? tc then
    mkState (GRID_SIZE s) (NUMBER_OF_SQUARES s) (squares s) (lineSums s)
            "Tie game... you both lose!"
            true (victoryFlag s) (currentPlayer s) tc
  else
    let next := if currentPlayer s =? PLAYER_ONE then PLAYER_TWO else PLAYER_ONE in
    mkState (GRID_SIZE s) (NUMBER_OF_SQUARES s) (squares s) (lineSums s)
            (getPlayerName next +:+ "'s turn")
            (gameOver s) (victoryFlag s) next tc.

(** A drag-and-drop event: the id put in the data transfer by [drag], and
    where the piece was dropped. *)
Inductive Target : Type :=
  | OnSquare (i : nat)
  | OnPiece.

Record DragEvent : Type := mkEvent {
  getData : PieceId;
  target : Target
}.

(** The element an event targets. Listeners are registered on the squares of
    the board only, so an index past the end of [squares] names no element
    and no handler runs for it. *)
Definition target_element (e : DragEvent) (s : State) : option Element :=
  match target e with
  | OnSquare i => Div i <$> squares s !! i
  | OnPiece => Some Img
  end.

Definition drop (e : DragEvent) (s : State) : State :=
  match target_element e s with
  | None => s
  | Some object =>
      let actualPlayer :=
        if String.eqb (id_text (getData e)) "player-1" then PLAYER_ONE else PLAYER_TWO in
      let legalTurn :=
        negb (gameOver s) && (actualPlayer =? currentPlayer s) && negb (isOccupied object) in
      if legalTurn then
        match object with
        | Div i sq => endTurn (takeTurn i sq (getData e) s)
        | Img => s (* not reached: an image is always occupied *)
        end
      else if gameOver s then
        set_message "The game is already over!" s
      else if negb (actualPlayer =? currentPlayer s) then
        set_message ("HEY! LISTEN! It's " +:+ getPlayerName (currentPlayer s) +:+ "'s turn!") s
      else if isOccupied object then
        set_message "That spot is already taken!" s
      else s
  end.

(** The inner [while] of [resetGame]: remove the last child and reset the
    class for as long as the square has a child. *)
Fixpoint clearSquare (fuel : nat) (sq : Square) : Square :=
  match fuel with
  | O => sq
  | S fuel' =>
      match childNodes sq with
      | [] => sq
      | _ :: _ =>
          clearSquare fuel'
            (mkSquare (data_x sq) (data_y sq) "square" (removelast (childNodes sq)))
      end
  end.

(** [lineSums = []] followed by [n] calls of [push(0)]. *)
Definition zeroSums (n : Z) : gmap Z num :=
  foldl (fun ls i => <[i := Num 0]> ls) ∅ (seqZ 0 n).

Definition resetGame (s : State) : State :=
  mkState (GRID_SIZE s) (NUMBER_OF_SQUARES s)
          (map (fun sq => clearSquare (length (childNodes sq)) sq) (squares s))
          (zeroSums (GRID_SIZE s * 2 + 2))
          (getPlayerName PLAYER_ONE +:+ " starts the game")
          false false PLAYER_ONE 0.

Definition getNewBoardSquare (x y : Z) : Square :=
  mkSquare x y "square" [].

(** The squares in document order: rows [y] outside, columns [x] inside. *)
Definition createGameBoard (n : Z) : list Square :=
  flat_map (fun y => map (fun x => getNewBoardSquare x y) (seqZ 0 n)) (seqZ 0 n).

(** The globals once [initTicTacToe] has set the game properties and built
    the board, before it calls [resetGame]: the state indicators are still
    [undefined], and [resetGame] assigns each of them before it is read. *)
Definition built (gridSize : Z) : State :=
  mkState gridSize (gridSize * gridSize) (createGameBoard gridSize)
          ∅ "" false false 0 0.

(** A page is [None] until the game has been initialized ([initialized] is
    false and the globals are unset), and [Some s] afterwards. A second call
    of [initTicTacToe] does nothing. The grid size is the integer that
    [parseInt] returns; the container element is taken to exist. *)
Definition initTicTacToe (gridSize : Z) (page : option State) : option State :=
  match page with
  | Some s => Some s
  | None => Some (resetGame (built gridSize))
  end.

(** ** Runs of the page *)

Inductive Action : Type :=
  | ADrop (e : DragEvent)
  | AReset.

Definition act (s : State) (a : Action) : State :=
  match a with
  | ADrop e => drop e s
  | AReset => resetGame s
  end.

(** The state after initializing an [n] x [n] game on a fresh page and
    performing the given drops and resets. *)
Definition run (n : Z) (acts : list Action) : State :=
  foldl act (resetGame (built n)) acts.

Inductive reachable (n : Z) : State -> Prop :=
  | reach_init s : initTicTacToe n None = Some s -> reachable n s
  | reach_act s a : reachable n s -> reachable n (act s a).

(** A player's piece dropped on the cell with coordinates [(x, y)]. *)
Definition cell (n x y : Z) : nat := Z.to_nat (y * n + x).

Definition place (n : Z) (p : PieceId) (x y : Z) : Action :=
  ADrop (mkEvent p (OnSquare (cell n x y))).

(** ** The board as the specification reads it *)

Definition piece_value (p : PieceId) : Z :=
  match p with
  | player_1 => PLAYER_ONE
  | player_2 => PLAYER_TWO
  end.

(** The piece that occupies a square, if any. *)
Definition occupant (sq : Square) : option PieceId := head (childNodes sq).

(** What a square contributes to the lines through it. *)
Definition square_value (sq : Square) : Z :=
  match occupant sq with
  | None => 0
  | Some p => piece_value p
  end.

Inductive Line : Type :=
  | Column (x : Z)
  | Row (y : Z)
  | MainDiagonal
  | AntiDiagonal.

(** Where a line's sum lives in [lineSums]. *)
Definition line_index (n : Z) (l : Line) : Z :=
  match l with
  | Column x => x
  | Row y => n + y
  | MainDiagonal => n * 2
  | AntiDiagonal => n * 2 + 1
  end.

Definition is_line (n : Z) (l : Line) : Prop :=
  match l with
  | Column x => 0 <= x < n
  | Row y => 0 <= y < n
  | MainDiagonal | AntiDiagonal => True
  end.

Definition is_diagonal (l : Line) : bool :=
  match l with
  | MainDiagonal | AntiDiagonal => true
  | _ => false
  end.

(** The attribute pairs [(x, y)] that lie on a line. *)
Definition at_line (n : Z) (l : Line) (x y : Z) : bool :=
  match l with
  | Column c => x =? c
  | Row r => y =? r
  | MainDiagonal => x =? y
  | AntiDiagonal => Z.abs (x - (n - 1)) =? y
  end.

Definition on_line (n : Z) (l : Line) (sq : Square) : bool :=
  at_line n l (data_x sq) (data_y sq).

(** Every cell of line [l] holds a piece of [p]. *)
Definition all_held (n : Z) (l : Line) (p : PieceId) (s : State) : Prop :=
  forall sq, sq ∈ squares s -> on_line n l sq = true -> occupant sq = Some p.

Fixpoint total (f : Square -> Z) (sqs : list Square) : Z :=
  match sqs with
  | [] => 0
  | sq :: rest => f sq + total f rest
  end.

(** The exact sum of a line: +1 per piece of player one, -1 per piece of
    player two on its cells. *)
Definition line_total (n : Z) (l : Line) (sqs : list Square) : Z :=
  total (fun sq => if on_line n l sq then square_value sq else 0) sqs.

Definition line_count (n : Z) (l : Line) (sqs : list Square) : Z :=
  total (fun sq => if on_line n l sq then 1 else 0) sqs.

Definition occupied_count (sqs : list Square) : Z :=
  total (fun sq => if isOccupied (Div 0 sq) then 1 else 0) sqs.

Definition same_place (a b : Square) : Prop :=
  data_x a = data_x b /\ data_y a = data_y b.

(** ** Sums *)

Fixpoint sumZ (h : Z -> Z) (l : list Z) : Z :=
  match l with
  | [] => 0
  | x :: rest => h x + sumZ h rest
  end.

(** The sums and the flag after [updateVictoryConditions x y p], for a cell of
    the grid and a table that holds the integers [a], [b], [c], [d] for the
    cell's column, its row and the two diagonals. *)
Definition update_result (x y p : Z) (s : State) (a b c d : Z) (s' : State) : Prop :=
  let n := GRID_SIZE s in
  exists c' d',
    lineSums s' !! x = Some (Num (a + p)) /\
    lineSums s' !! (n + y) = Some (Num (b + p)) /\
    lineSums s' !! (n * 2) = Some (Num c') /\
    lineSums s' !! (n * 2 + 1) = Some (Num d') /\
    (forall i, i ≠ x -> i ≠ n + y -> i ≠ n * 2 -> i ≠ n * 2 + 1 ->
               lineSums s' !! i = lineSums s !! i) /\
    ((victoryFlag s' = true /\ (Z.abs (a + p) = n \/ Z.abs (b + p) = n) /\
      c' = c /\ d' = d)
     \/ (victoryFlag s' = true /\ Z.abs (a + p) ≠ n /\ Z.abs (b + p) ≠ n /\
         x = y /\ c' = c + p /\ Z.abs c' = n /\ d' = d)
     \/ (Z.abs (a + p) ≠ n /\ Z.abs (b + p) ≠ n /\
         c' = (if x =? y then c + p else c) /\ (x = y -> Z.abs c' ≠ n) /\
         d' = (if Z.abs (x - (n - 1)) =? y then d + p else d) /\
         victoryFlag s' = (Z.abs (x - (n - 1)) =? y) && (Z.abs d' =? n))).

(** ** Invariants of the reachable states *)

(** A square is empty with its initial class, or holds exactly one piece
    whose id was appended to the class. *)
Definition cell_ok (sq : Square) : Prop :=
  (childNodes sq = [] /\ className sq = "square")
  \/ exists p, childNodes sq = [p] /\ className sq = "square" +:+ " " +:+ id_text p.

Record Board (n : Z) (s : State) : Prop := mkBoard {
  inv_grid : GRID_SIZE s = n;
  inv_nsq : NUMBER_OF_SQUARES s = n * n;
  inv_places : Forall2 same_place (squares s) (createGameBoard n);
  inv_cells : Forall cell_ok (squares s);
  inv_player : currentPlayer s = PLAYER_ONE \/ currentPlayer s = PLAYER_TWO;
  (* columns and rows: the stored sum is the exact one *)
  inv_straight : forall l, is_line n l -> is_diagonal l = false ->
    lineSums s !! line_index n l = Some (Num (line_total n l (squares s)));
  (* diagonals: exact, or one winning piece short *)
  inv_diag : forall l, is_diagonal l = true ->
    exists d, lineSums s !! line_index n l = Some (Num d) /\
      (d = line_total n l (squares s)
       \/ (victoryFlag s = true /\ d + currentPlayer s = line_total n l (squares s)
           /\ Z.abs d < n));
  inv_flag : victoryFlag s = true <->
    exists l, is_line n l /\ abs_is (lineSums s !! line_index n l) n = true
}.

Record Inv (n : Z) (s : State) : Prop := mkInv {
  inv_board : Board n s;
  inv_turn : turnCount s = occupied_count (squares s);
  inv_over : gameOver s = victoryFlag s || (n * n <=? turnCount s)
}.

(** ** The specification's reading of a move and of the line sums *)

Inductive Reason : Type :=
  | GameAlreadyOver
  | NotYourTurn (expected : Z)
  | CellOccupied.

Inductive MoveResult : Type :=
  | Rejected (why : Reason)
  | Accepted.

(** The preconditions of a move attempt as the specification lists them, in
    its order: game over, then wrong player, then occupied cell. *)
Definition attemptMove_check (player : Z) (occupied : bool) (s : State) : MoveResult :=
  if gameOver s then Rejected GameAlreadyOver
  else if negb (player =? currentPlayer s) then Rejected (NotYourTurn (currentPlayer s))
  else if occupied then Rejected CellOccupied
  else Accepted.

(** The status text of each rejection. *)
Definition reason_message (why : Reason) : string :=
  match why with
  | GameAlreadyOver => "The game is already over!"
  | NotYourTurn expected => "HEY! LISTEN! It's " +:+ getPlayerName expected +:+ "'s turn!"
  | CellOccupied => "That spot is already taken!"
  end.

(** Some line sum has reached N or -N. *)
Definition victory (n : Z) (s : State) : Prop :=
  exists l, is_line n l /\
            (lineSums s !! line_index n l = Some (Num n) \/
             lineSums s !! line_index n l = Some (Num (- n))).

(** The invariant on line sums as the specification words it. *)
Definition line_sum_claim (n : Z) (s : State) (l : Line) : Prop :=
  exists v, lineSums s !! line_index n l = Some (Num v) /\
            Z.abs v <= n /\
            (v = n <-> all_held n l player_1 s) /\
            (v = - n <-> all_held n l player_2 s).

Definition all_heldb (n : Z) (l : Line) (p : PieceId) (s : State) : bool :=
  forallb (fun sq => implb (on_line n l sq) (bool_decide (occupant sq = Some p)))
          (squares s).

(** ** Counting pieces and replaying drops *)

(** The square holds a piece of [p]. *)
Definition holds (p : PieceId) (sq : Square) : bool :=
  bool_decide (occupant sq = Some p).

(** How many cells of a line hold a piece of [p]. *)
Definition pieces_on (n : Z) (l : Line) (p : PieceId) (sqs : list Square) : Z :=
  total (fun sq => if on_line n l sq && holds p sq then 1 else 0) sqs.

(** How many squares of the board hold a piece of [p]. *)
Definition pieces_of (p : PieceId) (sqs : list Square) : Z :=
  total (fun sq => if holds p sq then 1 else 0) sqs.

(** A series of drops, in order. *)
Definition drops (s : State) (events : list DragEvent) : State :=
  foldl (fun s e => drop e s) s events.

(** What [resetGame] makes of one square. *)
Definition cleared (sq : Square) : Square :=
  mkSquare (data_x sq) (data_y sq)
           (match childNodes sq with [] => className sq | _ => "square" end) [].

(** The status text fits the state of the game: a game that is over shows a
    win of the current player (with the victory flag set), a tie (without
    it) or the refusal of a late move; a running game shows the opening
    line (before any move), the turn of the current player, a reminder of
    whose turn it is, or the refusal of an occupied square. *)
Definition status_fits (s : State) : Prop :=
  if gameOver s then
    (victoryFlag s = true /\
     message s = getPlayerName (currentPlayer s) +:+ " wins!") \/
    (victoryFlag s = false /\ message s = "Tie game... you both lose!") \/
    message s = "The game is already over!"
  else
    (turnCount s = 0 /\ currentPlayer s = PLAYER_ONE /\
     message s = getPlayerName PLAYER_ONE +:+ " starts the game") \/
    message s = getPlayerName (currentPlayer s) +:+ "'s turn" \/
    message s = "HEY! LISTEN! It's " +:+ getPlayerName (currentPlayer s) +:+ "'s turn!" \/
    message s = "That spot is already taken!".

(** ** The control panel *)

(** A figure of the control panel: a draggable image and its caption. *)
Record Figure : Type := mkFigure {
  img_id : string;
  img_src : string;
  img_alt : string;
  figcaption : string
}.

(** The figures built by the loop of [createGameControls], for i = 0 and
    i = 1; a number appended to a string is written in decimal. *)
Definition createGameControls (IMAGE_DIR : string) : list Figure :=
  map (fun i => mkFigure ("player-" +:+ pretty (i + 1))
                         (IMAGE_DIR +:+ "/player-" +:+ pretty (i + 1) +:+ ".png")
                         ("Player " +:+ pretty (i + 1))
                         (if i =? 0 then PLAYER_ONE_NAME else PLAYER_TWO_NAME))
      (seqZ 0 2).

(** [drag]: the text put in the data transfer is the id of the image that
    is dragged. *)
Definition drag (dragged : Figure) : string := img_id dragged.

(** The player that [drop] and [takeTurn] read off the data transfer. *)
Definition player_of_text (text : string) : Z :=
  if String.eqb text "player-1" then PLAYER_ONE else PLAYER_TWO.

(** ** Sample games on a 3 x 3 grid *)

(** Two moves into a game: player one at (0, 0), player two at (1, 0). *)
Definition opening : list Action :=
  [ place 3 player_1 0 0; place 3 player_2 1 0 ].

(** Eight legal moves after which nobody has a line and only the corner
    (2, 2) is free. *)
Definition eight_moves : list Action :=
  [ place 3 player_1 0 0; place 3 player_2 1 0; place 3 player_1 1 1;
    place 3 player_2 2 0; place 3 player_1 0 2; place 3 player_2 0 1;
    place 3 player_1 1 2; place 3 player_2 2 1 ].

(** The ninth move, by player one at the corner (2, 2), completes row 2 and
    the main diagonal at once. *)
Definition row_and_diagonal : list Action :=
  eight_moves ++ [ place 3 player_1 2 2 ].

(** Player one takes row 0 in five moves. *)
Definition row_win : list Action :=
  [ place 3 player_1 0 0; place 3 player_2 0 1; place 3 player_1 1 0;
    place 3 player_2 1 1; place 3 player_1 2 0 ].

(** Player one takes the main diagonal in five moves. *)
Definition diagonal_win : list Action :=
  [ place 3 player_1 0 0; place 3 player_2 1 0; place 3 player_1 1 1;
    place 3 player_2 0 1; place 3 player_1 2 2 ].

(** Nine moves that fill the board without a line. *)
Definition drawn_game : list Action :=
  [ place 3 player_1 0 0; place 3 player_2 1 0; place 3 player_1 2 0;
    place 3 player_2 1 1; place 3 player_1 0 1; place 3 player_2 2 1;
    place 3 player_1 1 2; place 3 player_2 0 2; place 3 player_1 2 2 ].

(** ** Sums over lists *)

Section Totals.

Lemma total_app f l1 l2 : total f (l1 ++ l2) = total f l1 + total f l2.
Proof. induction l1 as [|a l1 IH]; simpl; lia. Qed.

Lemma total_map f (g : Z -> Square) l : total f (map g l) = sumZ (fun x => f (g x)) l.
Proof. induction l as [|a l IH]; simpl; congruence. Qed.

Lemma total_flat_map f (g : Z -> list Square) l :
  total f (flat_map g l) = sumZ (fun y => total f (g y)) l.
Proof. induction l as [|a l IH]; simpl; [done|]. rewrite total_app. lia. Qed.

Lemma sumZ_ext h h' l : (forall x, x ∈ l -> h x = h' x) -> sumZ h l = sumZ h' l.
Proof.
  induction l as [|a l IH]; intros H; simpl; [done|].
  rewrite (H a) by apply list_elem_of_here.
  rewrite IH; [done|]. intros x Hx. apply H. by apply list_elem_of_further.
Qed.

Lemma sumZ_const c l : sumZ (fun _ => c) l = c * Z.of_nat (length l).
Proof. induction l as [|a l IH]; simpl length; simpl sumZ; lia. Qed.

(** Exactly one index of a range hits a given point of it. *)
Lemma sumZ_point c a (k : nat) :
  sumZ (fun x => if x =? c then 1 else 0) (seqZ a (Z.of_nat k))
  = if (a <=? c) && (c <? a + Z.of_nat k) then 1 else 0.
Proof.
  revert a. induction k as [|k IH]; intros a.
  - simpl. destruct (Z.leb_spec a c), (Z.ltb_spec c (a + Z.of_nat 0)); simpl; lia.
  - rewrite seqZ_cons by lia. simpl sumZ.
    replace (Z.pred (Z.of_nat (S k))) with (Z.of_nat k) by lia.
    rewrite IH.
    destruct (Z.eqb_spec a c), (Z.leb_spec (Z.succ a) c),
      (Z.ltb_spec c (Z.succ a + Z.of_nat k)), (Z.leb_spec a c),
      (Z.ltb_spec c (a + Z.of_nat (S k))); simpl; lia.
Qed.

Lemma total_insert f (sqs : list Square) (i : nat) sq sq' :
  sqs !! i = Some sq ->
  total f (<[i := sq']> sqs) = total f sqs - f sq + f sq'.
Proof.
  revert i. induction sqs as [|a sqs IH]; intros [|i] H; simpl in *; try done.
  - injection H as ->. lia.
  - rewrite (IH i H). lia.
Qed.

Lemma total_abs_le f g sqs :
  (forall sq, sq ∈ sqs -> Z.abs (f sq) <= g sq) -> Z.abs (total f sqs) <= total g sqs.
Proof.
  induction sqs as [|a sqs IH]; intros H; simpl; [lia|].
  pose proof (H a (list_elem_of_here _ _)).
  assert (Z.abs (total f sqs) <= total g sqs).
  { apply IH. intros sq Hsq. apply H. by apply list_elem_of_further. }
  lia.
Qed.

Lemma total_le f g sqs :
  (forall sq, sq ∈ sqs -> f sq <= g sq) -> total f sqs <= total g sqs.
Proof.
  induction sqs as [|a sqs IH]; intros H; simpl; [lia|].
  pose proof (H a (list_elem_of_here _ _)).
  assert (total f sqs <= total g sqs).
  { apply IH. intros sq Hsq. apply H. by apply list_elem_of_further. }
  lia.
Qed.

(** A sum that meets its bound meets it at every element. *)
Lemma total_tight f g sqs :
  (forall sq, sq ∈ sqs -> f sq <= g sq) ->
  total f sqs = total g sqs ->
  forall sq, sq ∈ sqs -> f sq = g sq.
Proof.
  induction sqs as [|a sqs IH]; intros H Heq sq Hsq; [by apply elem_of_nil in Hsq|].
  simpl in Heq.
  pose proof (H a (list_elem_of_here _ _)).
  assert (total f sqs <= total g sqs).
  { apply total_le. intros ? ?. apply H. by apply list_elem_of_further. }
  apply elem_of_cons in Hsq as [->|Hsq]; [lia|].
  apply IH; [|lia|done]. intros ? ?. apply H. by apply list_elem_of_further.
Qed.

Lemma total_pointwise f g sqs :
  (forall sq, sq ∈ sqs -> f sq = g sq) -> total f sqs = total g sqs.
Proof.
  induction sqs as [|a sqs IH]; intros H; simpl; [done|].
  rewrite (H a) by apply list_elem_of_here.
  rewrite IH; [done|]. intros ? ?. apply H. by apply list_elem_of_further.
Qed.

(** A function of the coordinates alone has the same total on two boards
    with the same squares in the same places. *)
Lemma total_same_place f sqs sqs' :
  (forall a b, same_place a b -> f a = f b) ->
  Forall2 same_place sqs sqs' -> total f sqs = total f sqs'.
Proof.
  intros Hf H. induction H as [|a b l l' Hab _ IH]; simpl; [done|].
  rewrite (Hf a b Hab). lia.
Qed.

End Totals.

(** ** The board built by [createGameBoard] *)

Section Board.

Variable n : Z.
Hypothesis n_nonneg : 0 <= n.

Lemma sumZ_scale h c l : sumZ (fun x => h x * c) l = sumZ h l * c.
Proof. induction l as [|a l IH]; simpl; lia. Qed.

Lemma sumZ_range_point c :
  0 <= c < n -> sumZ (fun x => if x =? c then 1 else 0) (seqZ 0 n) = 1.
Proof.
  intros Hc. replace n with (Z.of_nat (Z.to_nat n)) by lia.
  rewrite sumZ_point.
  destruct (Z.leb_spec 0 c), (Z.ltb_spec c (0 + Z.of_nat (Z.to_nat n))); simpl; lia.
Qed.

Lemma sumZ_range_const c : sumZ (fun _ => c) (seqZ 0 n) = c * n.
Proof. rewrite sumZ_const, length_seqZ, Z2Nat.id by done. done. Qed.

Lemma board_total f :
  total f (createGameBoard n)
  = sumZ (fun y => sumZ (fun x => f (getNewBoardSquare x y)) (seqZ 0 n)) (seqZ 0 n).
Proof.
  unfold createGameBoard. rewrite total_flat_map.
  apply sumZ_ext. intros y _. apply total_map.
Qed.

(** Every line of the board has exactly [n] cells. *)
Lemma board_line_count l : is_line n l -> line_count n l (createGameBoard n) = n.
Proof.
  intros Hl. unfold line_count. rewrite board_total.
  unfold on_line; simpl. destruct l as [c|r| |]; simpl in *.
  - rewrite (sumZ_ext _ (fun _ => 1)).
    + rewrite sumZ_range_const. lia.
    + intros y _. by apply sumZ_range_point.
  - rewrite (sumZ_ext _ (fun y => (if y =? r then 1 else 0) * n)).
    + rewrite sumZ_scale, sumZ_range_point; lia.
    + intros y _. rewrite sumZ_range_const. lia.
  - rewrite (sumZ_ext _ (fun _ => 1)).
    + rewrite sumZ_range_const. lia.
    + intros y Hy%elem_of_seqZ. apply sumZ_range_point. lia.
  - rewrite (sumZ_ext _ (fun _ => 1)).
    + rewrite sumZ_range_const. lia.
    + intros y Hy%elem_of_seqZ.
      rewrite (sumZ_ext _ (fun x => if x =? n - 1 - y then 1 else 0)).
      * apply sumZ_range_point. lia.
      * intros x Hx%elem_of_seqZ.
        destruct (Z.eqb_spec (Z.abs (x - (n - 1))) y), (Z.eqb_spec x (n - 1 - y)); lia.
Qed.

Lemma board_size : total (fun _ => 1) (createGameBoard n) = n * n.
Proof. rewrite board_total. rewrite (sumZ_ext _ (fun _ => n)).
  - rewrite sumZ_range_const. lia.
  - intros y _. rewrite sumZ_range_const. lia.
Qed.

Lemma board_coords sq :
  sq ∈ createGameBoard n -> 0 <= data_x sq < n /\ 0 <= data_y sq < n.
Proof.
  unfold createGameBoard. rewrite list_elem_of_In, in_flat_map.
  intros (y & Hy & Hsq). apply in_map_iff in Hsq as (x & <- & Hx).
  apply list_elem_of_In, elem_of_seqZ in Hy, Hx. simpl. lia.
Qed.

Lemma board_empty sq :
  sq ∈ createGameBoard n -> childNodes sq = [] /\ className sq = "square".
Proof.
  unfold createGameBoard. rewrite list_elem_of_In, in_flat_map.
  intros (y & Hy & Hsq). apply in_map_iff in Hsq as (x & <- & Hx). done.
Qed.

End Board.

(** ** One update of the line sums *)

Lemma add_at_eq i p (ls : gmap Z num) : add_at i p ls !! i = Some (js_add (ls !! i) p).
Proof. unfold add_at. by rewrite lookup_insert_eq. Qed.

Lemma add_at_ne i j p (ls : gmap Z num) : i ≠ j -> add_at i p ls !! j = ls !! j.
Proof. intros H. unfold add_at. by rewrite lookup_insert_ne. Qed.

Lemma updateVictoryConditions_frame x y p s :
  let s' := updateVictoryConditions x y p s in
  GRID_SIZE s' = GRID_SIZE s /\ NUMBER_OF_SQUARES s' = NUMBER_OF_SQUARES s /\
  squares s' = squares s /\ message s' = message s /\ gameOver s' = gameOver s /\
  currentPlayer s' = currentPlayer s /\ turnCount s' = turnCount s.
Proof.
  unfold updateVictoryConditions.
  repeat match goal with |- context [if ?b then _ else _] => destruct b end; done.
Qed.

Lemma updateVictoryConditions_result x y p s a b c d :
  let n := GRID_SIZE s in
  0 <= x < n -> 0 <= y < n ->
  lineSums s !! x = Some (Num a) ->
  lineSums s !! (n + y) = Some (Num b) ->
  lineSums s !! (n * 2) = Some (Num c) ->
  lineSums s !! (n * 2 + 1) = Some (Num d) ->
  update_result x y p s a b c d (updateVictoryConditions x y p s).
Proof.
  intros n Hx Hy Ha Hb Hc Hd.
  unfold update_result, updateVictoryConditions. fold n.
  set (ls2 := add_at (n + y) p (add_at x p (lineSums s))).
  assert (H2x : ls2 !! x = Some (Num (a + p))).
  { unfold ls2. rewrite add_at_ne by lia. by rewrite add_at_eq, Ha. }
  assert (H2y : ls2 !! (n + y) = Some (Num (b + p))).
  { unfold ls2. rewrite add_at_eq, add_at_ne by lia. by rewrite Hb. }
  assert (H2c : ls2 !! (n * 2) = Some (Num c)).
  { unfold ls2. by rewrite !add_at_ne by lia. }
  assert (H2d : ls2 !! (n * 2 + 1) = Some (Num d)).
  { unfold ls2. by rewrite !add_at_ne by lia. }
  assert (H2o : forall i, i ≠ x -> i ≠ n + y -> ls2 !! i = lineSums s !! i).
  { intros i ? ?. unfold ls2. by rewrite !add_at_ne by lia. }
  rewrite H2x, H2y. simpl abs_is.
  assert (Hlook : forall (ls : gmap Z num) i j, i ≠ j -> add_at i p ls !! j = ls !! j)
    by (intros; by apply add_at_ne).
  destruct (Z.eqb_spec (Z.abs (a + p)) n) as [Ea|Ea];
    [|destruct (Z.eqb_spec (Z.abs (b + p)) n) as [Eb|Eb]]; simpl.
  1,2: exists c, d; split_and!; auto; left; split_and!; auto.
  destruct (Z.eqb_spec x y) as [Exy|Exy]; simpl;
    rewrite ?add_at_eq, ?H2c; simpl;
    [destruct (Z.eqb_spec (Z.abs (c + p)) n) as [Ec|Ec]; simpl|];
    (destruct (Z.eqb_spec (Z.abs (x - (n - 1))) y) as [Ead|Ead]; simpl);
    rewrite ?add_at_eq; rewrite ?(Hlook _ (n * 2) (n * 2 + 1)) by lia;
    rewrite ?H2d; simpl.
  all: eexists _, _; split_and!;
    [ rewrite ?Hlook by lia; exact H2x
    | rewrite ?Hlook by lia; exact H2y
    | rewrite ?(Hlook _ (n * 2 + 1)) by lia; rewrite ?add_at_eq, ?H2c; simpl; reflexivity
    | rewrite ?add_at_eq, ?H2d; simpl; reflexivity
    | intros i ? ? ? ?; rewrite ?Hlook by lia; by apply H2o
    | ].
  1,2: right; left; split_and!; auto.
  all: right; right; split_and!; auto; try done; try lia.
Qed.

(** ** Lines of a board in place *)

Section Lines.

Variable n : Z.
Hypothesis n_pos : 1 <= n.

Lemma square_value_bound sq : -1 <= square_value sq <= 1.
Proof.
  unfold square_value. destruct (occupant sq) as [[]|]; unfold piece_value, PLAYER_ONE, PLAYER_TWO; lia.
Qed.

Lemma square_value_one sq p :
  square_value sq = piece_value p <-> occupant sq = Some p.
Proof.
  unfold square_value.
  destruct (occupant sq) as [[]|], p; unfold piece_value, PLAYER_ONE, PLAYER_TWO;
    split; intros H; try done; try lia.
Qed.

Lemma places_line_count (sqs : list Square) l :
  Forall2 same_place sqs (createGameBoard n) -> is_line n l -> line_count n l sqs = n.
Proof.
  intros H Hl. rewrite <- (board_line_count n ltac:(lia) l Hl) at 2.
  apply total_same_place; [|done].
  intros a b [Hx Hy]. unfold on_line. by rewrite Hx, Hy.
Qed.

Lemma places_size (sqs : list Square) :
  Forall2 same_place sqs (createGameBoard n) -> total (fun _ => 1) sqs = n * n.
Proof.
  intros H. rewrite <- (board_size n ltac:(lia)). by apply total_same_place.
Qed.

Lemma places_coords (sqs : list Square) i sq :
  Forall2 same_place sqs (createGameBoard n) -> sqs !! i = Some sq ->
  0 <= data_x sq < n /\ 0 <= data_y sq < n.
Proof.
  intros H Hi.
  destruct (Forall2_lookup_l _ _ _ _ _ H Hi) as (b & Hb & [Hx Hy]).
  rewrite Hx, Hy. apply board_coords. eapply list_elem_of_lookup_2, Hb.
Qed.

Lemma occupied_count_le (sqs : list Square) :
  Forall2 same_place sqs (createGameBoard n) -> 0 <= occupied_count sqs <= n * n.
Proof.
  intros H. rewrite <- (places_size sqs H). unfold occupied_count. split.
  - change 0 with (Z.abs 0). etrans; [|apply (total_abs_le (fun _ => 0))].
    + clear. induction sqs; simpl; lia.
    + intros sq _. simpl. destruct (isOccupied _); lia.
  - apply total_le. intros sq _. destruct (isOccupied _); lia.
Qed.

Lemma line_total_bound (sqs : list Square) l :
  Forall2 same_place sqs (createGameBoard n) -> is_line n l ->
  Z.abs (line_total n l sqs) <= n.
Proof.
  intros H Hl. rewrite <- (places_line_count sqs l H Hl) at 2.
  apply total_abs_le. intros sq _.
  pose proof (square_value_bound sq). destruct (on_line n l sq); lia.
Qed.

Lemma total_opp f sqs : total (fun sq => - f sq) sqs = - total f sqs.
Proof. induction sqs as [|a sqs IH]; simpl; lia. Qed.

(** A line's exact sum is [n] times a player's value exactly when the
    player holds every cell of the line. *)
Lemma line_total_full (sqs : list Square) l p :
  Forall2 same_place sqs (createGameBoard n) -> is_line n l ->
  line_total n l sqs = n * piece_value p <->
  (forall sq, sq ∈ sqs -> on_line n l sq = true -> occupant sq = Some p).
Proof.
  intros H Hl. pose proof (places_line_count sqs l H Hl) as Hc.
  unfold line_total, line_count in *.
  set (f := fun sq => if on_line n l sq then square_value sq else 0) in *.
  set (g := fun sq => if on_line n l sq then 1 else 0) in *.
  assert (Hv : piece_value p = 1 \/ piece_value p = -1) by (destruct p; auto).
  split.
  - intros Ht sq Hsq Hon. apply square_value_one.
    destruct Hv as [Hv|Hv]; rewrite Hv in *.
    + assert (E : f sq = g sq).
      { apply (total_tight f g sqs); [|lia|done].
        intros q _. unfold f, g. pose proof (square_value_bound q).
        destruct (on_line n l q); lia. }
      unfold f, g in E. rewrite Hon in E. done.
    + assert (E : - f sq = g sq).
      { apply (total_tight (fun q => - f q) g sqs); [|rewrite total_opp; lia|done].
        intros q _. unfold f, g. pose proof (square_value_bound q).
        destruct (on_line n l q); lia. }
      unfold f, g in E. rewrite Hon in E. lia.
  - intros Hall. rewrite <- Hc.
    transitivity (total (fun sq => g sq * piece_value p) sqs).
    + apply total_pointwise. intros sq Hsq. unfold f, g.
      destruct (on_line n l sq) eqn:Hon; [|lia].
      apply (Hall sq Hsq), square_value_one in Hon. lia.
    + clear. induction sqs as [|a sqs IH]; simpl; lia.
Qed.

End Lines.

(** ** [resetGame] *)

Lemma removelast_cons_length {A} (a : A) l : length (removelast (a :: l)) = length l.
Proof. revert a. induction l as [|b l IH]; intros a; [done|]. simpl in *. by rewrite IH. Qed.

(** The clearing loop runs until the square is empty; the class is reset only
    when there was something to remove. *)
Lemma clearSquare_spec fuel sq :
  (length (childNodes sq) <= fuel)%nat ->
  clearSquare fuel sq
  = mkSquare (data_x sq) (data_y sq)
             (match childNodes sq with [] => className sq | _ => "square" end) [].
Proof.
  revert sq. induction fuel as [|fuel IH]; intros [x y c ch] Hlen; simpl in *.
  - destruct ch; simpl in *; [done|lia].
  - destruct ch as [|a ch]; [done|].
    rewrite IH; simpl.
    + by destruct (match ch with [] => [] | _ :: _ => a :: removelast ch end).
    + pose proof (removelast_cons_length a ch) as E. simpl in E, Hlen. lia.
Qed.

Lemma zeroSums_lookup m i :
  zeroSums m !! i = if decide (0 <= i < m) then Some (Num 0) else None.
Proof.
  unfold zeroSums.
  assert (G : forall (l : list Z) (base : gmap Z num),
             foldl (fun ls i => <[i := Num 0]> ls) base l !! i
             = if decide (i ∈ l) then Some (Num 0) else base !! i).
  { induction l as [|a l IH]; intros base; cbn [foldl].
    - destruct (decide (i ∈ [])) as [H|H]; [by apply elem_of_nil in H|done].
    - rewrite IH. destruct (decide (i ∈ l)) as [Hin|Hin].
      + rewrite decide_True; [done|]. by apply list_elem_of_further.
      + destruct (decide (a = i)) as [->|Hne].
        * rewrite lookup_insert_eq, decide_True; [done|]. apply list_elem_of_here.
        * rewrite lookup_insert_ne by done. rewrite decide_False; [done|].
          intros Hi. apply elem_of_cons in Hi as [?|?]; congruence. }
  rewrite G, lookup_empty.
  destruct (decide (0 <= i < m)) as [H|H].
  - rewrite decide_True; [done|]. apply elem_of_seqZ. lia.
  - rewrite decide_False; [done|]. rewrite elem_of_seqZ. lia.
Qed.

Lemma resetGame_childNodes s sq :
  sq ∈ squares (resetGame s) -> childNodes sq = [].
Proof.
  simpl. rewrite list_elem_of_In, in_map_iff. intros (q & <- & _).
  by rewrite clearSquare_spec.
Qed.

Lemma resetGame_places n s :
  Forall2 same_place (squares s) (createGameBoard n) ->
  Forall2 same_place (squares (resetGame s)) (createGameBoard n).
Proof.
  simpl. generalize (createGameBoard n). induction 1 as [|a b l k Hab _ IH]; simpl.
  - constructor.
  - constructor; [|done]. by rewrite clearSquare_spec.
Qed.

Lemma total_zero f sqs : (forall sq, sq ∈ sqs -> f sq = 0) -> total f sqs = 0.
Proof.
  intros H. rewrite (total_pointwise f (fun _ => 0) sqs H).
  clear. induction sqs; simpl; lia.
Qed.

Lemma resetGame_Inv n s :
  1 <= n ->
  GRID_SIZE s = n -> NUMBER_OF_SQUARES s = n * n ->
  Forall2 same_place (squares s) (createGameBoard n) ->
  Forall (fun sq => childNodes sq = [] -> className sq = "square") (squares s) ->
  Inv n (resetGame s).
Proof.
  intros Hn Hg Hq Hp Hc.
  assert (Hempty : forall sq, sq ∈ squares (resetGame s) -> square_value sq = 0).
  { intros sq Hsq%resetGame_childNodes. unfold square_value, occupant. by rewrite Hsq. }
  assert (Hsum : forall l, is_line n l ->
            lineSums (resetGame s) !! line_index n l
            = Some (Num (line_total n l (squares (resetGame s))))).
  { intros l Hl. unfold line_total. rewrite total_zero.
    - cbn [lineSums resetGame]. rewrite zeroSums_lookup, Hg.
      rewrite decide_True; [done|]. destruct l; simpl in *; lia.
    - intros sq Hsq. rewrite (Hempty sq Hsq). by destruct (on_line n l sq). }
  assert (Hzero : forall l, line_total n l (squares (resetGame s)) = 0).
  { intros l. apply total_zero. intros sq Hsq. rewrite (Hempty sq Hsq).
    by destruct (on_line n l sq). }
  split; [split|..]; try done.
  - by apply resetGame_places.
  - apply Forall_forall. intros sq. simpl.
    rewrite list_elem_of_In, in_map_iff. intros (q & <- & Hq').
    rewrite clearSquare_spec by done. left. simpl. split; [done|].
    apply list_elem_of_In in Hq'. rewrite Forall_forall in Hc.
    specialize (Hc q Hq'). by destruct (childNodes q); [apply Hc|].
  - by left.
  - intros l Hl _. by apply Hsum.
  - intros l Hl. eexists. split; [apply Hsum; by destruct l|]. by left.
  - split; [done|]. intros (l & Hl & Habs).
    rewrite (Hsum l Hl), Hzero in Habs. cbn [abs_is] in Habs.
    apply Z.eqb_eq in Habs. lia.
  - cbn [turnCount squares resetGame]. symmetry. apply total_zero.
    intros sq Hsq. change (sq ∈ squares (resetGame s)) in Hsq.
    apply resetGame_childNodes in Hsq. unfold isOccupied. simpl. by rewrite Hsq.
  - cbn [gameOver victoryFlag turnCount resetGame]. simpl.
    symmetry. apply Z.leb_gt. nia.
Qed.

Lemma built_Inv n : 1 <= n -> Inv n (resetGame (built n)).
Proof.
  intros Hn. apply resetGame_Inv; try done.
  - simpl. apply Forall2_same_length_lookup_2; [done|].
    intros i a b Ha Hb. rewrite Ha in Hb. by injection Hb as ->.
  - apply Forall_forall. intros sq Hsq _. simpl in Hsq.
    by apply (board_empty n) in Hsq as [_ ?].
Qed.

(** ** An accepted move *)

Lemma piece_of_text text :
  (if String.eqb (id_text text) "player-1" then PLAYER_ONE else PLAYER_TWO)
  = piece_value text.
Proof. by destruct text. Qed.

Lemma isOccupied_Div i sq : isOccupied (Div i sq) = false <-> childNodes sq = [].
Proof. unfold isOccupied. simpl. destruct (childNodes sq); simpl; split; done. Qed.

Lemma abs_is_Num z n : abs_is (Some (Num z)) n = true <-> Z.abs z = n.
Proof. simpl. apply Z.eqb_eq. Qed.

Lemma Forall2_same_place_insert (sqs k : list Square) i sq sq' :
  Forall2 same_place sqs k -> sqs !! i = Some sq -> same_place sq' sq ->
  Forall2 same_place (<[i := sq']> sqs) k.
Proof.
  intros H. revert i. induction H as [|a b l k' Hab H IH]; intros [|i] Hi Hs; simpl in *;
    try done.
  - injection Hi as ->. constructor; [|done].
    destruct Hs as [E1 E2], Hab as [E3 E4]. split; congruence.
  - constructor; [done|]. by apply IH.
Qed.

Section Accepted.

Variables (n : Z) (s : State) (i : nat) (sq : Square) (text : PieceId).
Hypothesis n_pos : 1 <= n.
Hypothesis HInv : Inv n s.
Hypothesis Hrun : gameOver s = false.
Hypothesis Hi : squares s !! i = Some sq.
Hypothesis Hfree : childNodes sq = [].

Let move_x := data_x sq.
Let move_y := data_y sq.
Let move_value := piece_value text.
Let placed := mkSquare (data_x sq) (data_y sq) (className sq +:+ " " +:+ id_text text)
                    (childNodes sq ++ [text]).
Let after_turn := takeTurn i sq text s.

Lemma accepted_flag_off : victoryFlag s = false /\ turnCount s < n * n.
Proof.
  destruct HInv as [_ _ Ho]. rewrite Hrun in Ho.
  symmetry in Ho. apply orb_false_iff in Ho as [? ?%Z.leb_gt]. done.
Qed.

Lemma accepted_no_line l :
  is_line n l -> forall z, lineSums s !! line_index n l = Some (Num z) -> Z.abs z ≠ n.
Proof.
  intros Hl z Hz Habs. destruct accepted_flag_off as [Hf _].
  destruct HInv as [[_ _ _ _ _ _ _ Hfl] _ _].
  assert (victoryFlag s = true); [|congruence].
  apply Hfl. exists l. split; [done|]. rewrite Hz. by apply abs_is_Num.
Qed.

Lemma accepted_coords : 0 <= move_x < n /\ 0 <= move_y < n.
Proof. destruct HInv as [[_ _ Hp _ _ _ _ _] _ _]. by eapply places_coords. Qed.

Lemma accepted_squares : squares after_turn = <[i := placed]> (squares s).
Proof.
  pose proof (updateVictoryConditions_frame (data_x sq) (data_y sq)
    (if String.eqb (id_text text) "player-1" then PLAYER_ONE else PLAYER_TWO)
    (set_squares (<[i := placed]> (squares s)) s)) as H.
  cbv zeta in H. by destruct H as (_ & _ & H & _).
Qed.

Lemma accepted_frame :
  GRID_SIZE after_turn = GRID_SIZE s /\ NUMBER_OF_SQUARES after_turn = NUMBER_OF_SQUARES s /\
  message after_turn = message s /\ gameOver after_turn = gameOver s /\
  currentPlayer after_turn = currentPlayer s /\ turnCount after_turn = turnCount s.
Proof.
  pose proof (updateVictoryConditions_frame (data_x sq) (data_y sq)
    (if String.eqb (id_text text) "player-1" then PLAYER_ONE else PLAYER_TWO)
    (set_squares (<[i := placed]> (squares s)) s)) as H.
  cbv zeta in H. by destruct H as (? & ? & _ & ? & ? & ? & ?).
Qed.

(** The new piece adds its value to the exact sum of each line through
    its cell, and to no other. *)
Lemma accepted_line_total l :
  line_total n l (squares after_turn)
  = line_total n l (squares s) + (if at_line n l move_x move_y then move_value else 0).
Proof.
  rewrite accepted_squares. unfold line_total.
  rewrite (total_insert _ _ _ sq placed Hi).
  unfold on_line, square_value, occupant. simpl. rewrite Hfree. simpl.
  fold move_x move_y move_value. destruct (at_line n l move_x move_y); lia.
Qed.

Lemma accepted_occupied : occupied_count (squares after_turn) = occupied_count (squares s) + 1.
Proof.
  rewrite accepted_squares. unfold occupied_count.
  rewrite (total_insert _ _ _ sq placed Hi).
  unfold isOccupied. simpl. rewrite Hfree. simpl. lia.
Qed.

Lemma accepted_update :
  update_result move_x move_y move_value (set_squares (<[i := placed]> (squares s)) s)
    (line_total n (Column move_x) (squares s)) (line_total n (Row move_y) (squares s))
    (line_total n MainDiagonal (squares s)) (line_total n AntiDiagonal (squares s))
    after_turn.
Proof.
  destruct accepted_coords as [Hx Hy]. destruct accepted_flag_off as [Hf _].
  destruct HInv as [[Hg _ _ _ _ Hst Hdg _] _ _].
  unfold after_turn, takeTurn. rewrite piece_of_text. fold move_x move_y move_value placed.
  apply updateVictoryConditions_result; simpl; rewrite ?Hg; try done.
  - by apply (Hst (Column move_x)).
  - by apply (Hst (Row move_y)).
  - destruct (Hdg MainDiagonal eq_refl) as (d & Hd & [->|[? _]]); [done|congruence].
  - destruct (Hdg AntiDiagonal eq_refl) as (d & Hd & [->|[? _]]); [done|congruence].
Qed.

Hypothesis Hv : move_value = currentPlayer s.

Lemma accepted_Board : Board n after_turn.
Proof.
  destruct accepted_coords as [Hx Hy]. destruct accepted_flag_off as [Hf Ht].
  destruct accepted_frame as (Fg & Fq & _ & Fo & Fp & Ft).
  pose proof accepted_update as (c' & d' & Hx' & Hy' & Hc' & Hd' & Hoth & Hcases).
  cbn [GRID_SIZE set_squares lineSums] in Hx', Hy', Hc', Hd', Hoth, Hcases.
  pose proof (accepted_line_total MainDiagonal) as Tc.
  pose proof (accepted_line_total AntiDiagonal) as Td.
  pose proof (accepted_no_line (Column move_x) Hx) as Na.
  pose proof (accepted_no_line (Row move_y) Hy) as Nb.
  pose proof (accepted_no_line MainDiagonal I) as Nc.
  pose proof (accepted_no_line AntiDiagonal I) as Nd.
  destruct HInv as [[Hg Hq Hp Hc Hpl Hst Hdg Hfl] Hturn Hover].
  rewrite Hg in Hy', Hc', Hd', Hcases, Fg.
  setoid_rewrite Hg in Hoth.
  specialize (Na _ (Hst (Column move_x) Hx eq_refl)).
  specialize (Nb _ (Hst (Row move_y) Hy eq_refl)).
  assert (Ec : lineSums s !! (n * 2) = Some (Num (line_total n MainDiagonal (squares s)))).
  { destruct (Hdg MainDiagonal eq_refl) as (d & Hd & [->|[? _]]); [done|congruence]. }
  assert (Ed : lineSums s !! (n * 2 + 1) = Some (Num (line_total n AntiDiagonal (squares s)))).
  { destruct (Hdg AntiDiagonal eq_refl) as (d & Hd & [->|[? _]]); [done|congruence]. }
  specialize (Nc _ Ec). specialize (Nd _ Ed).
  pose proof (line_total_bound n n_pos _ MainDiagonal Hp I) as Bc.
  pose proof (line_total_bound n n_pos _ AntiDiagonal Hp I) as Bd.
  simpl at_line in Tc, Td. fold move_x move_y in Tc, Td.
  set (a := line_total n (Column move_x) (squares s)) in *.
  set (b := line_total n (Row move_y) (squares s)) in *.
  set (c := line_total n MainDiagonal (squares s)) in *.
  set (d := line_total n AntiDiagonal (squares s)) in *.
  split.
  - done.
  - by rewrite Fq.
  - rewrite accepted_squares. by eapply Forall2_same_place_insert.
  - rewrite accepted_squares. apply Forall_insert; [done|].
    right. exists text. simpl. rewrite Hfree. split; [done|].
    rewrite Forall_forall in Hc. destruct (Hc sq) as [[_ ->]|(p & Hp' & _)];
      [by eapply list_elem_of_lookup_2|done|congruence].
  - by rewrite Fp.
  - intros l Hl Hnd. rewrite accepted_line_total. clear Hcases Tc Td Na Nb Nc Nd Bc Bd.
    destruct l as [c0|r0| |]; try done; simpl in Hl |- *.
    + destruct (Z.eqb_spec move_x c0) as [<-|Hne]; [done|].
      rewrite Hoth by (clear - Hx Hy Hl Hne; lia).
      rewrite Z.add_0_r. by apply (Hst (Column c0)).
    + destruct (Z.eqb_spec move_y r0) as [<-|Hne]; [done|].
      rewrite Hoth by (clear - Hx Hy Hl Hne; lia).
      rewrite Z.add_0_r. by apply (Hst (Row r0)).
  - intros l Hl. rewrite Fp, <- Hv.
    destruct l; try done; simpl line_index.
    + exists c'. split; [done|]. rewrite Tc.
      destruct Hcases as [(Hw & _ & -> & _)|[(_ & _ & _ & Exy & -> & _)|(_ & _ & -> & _)]].
      * destruct (move_x =? move_y); [right; split_and!; [done|done|clear - Bc Nc; lia]|left; lia].
      * left. by rewrite (proj2 (Z.eqb_eq move_x move_y) Exy).
      * left. destruct (move_x =? move_y); lia.
    + exists d'. split; [done|]. rewrite Td.
      destruct Hcases as [(Hw & _ & _ & ->)|[(Hw & _ & _ & _ & _ & _ & ->)|(_ & _ & _ & _ & -> & _)]].
      * destruct (Z.abs (move_x - (n - 1)) =? move_y);
          [right; split_and!; [done|done|clear - Bd Nd; lia]|left; lia].
      * destruct (Z.abs (move_x - (n - 1)) =? move_y);
          [right; split_and!; [done|done|clear - Bd Nd; lia]|left; lia].
      * left. destruct (Z.abs (move_x - (n - 1)) =? move_y); lia.
  - split.
    + intros Hw.
      destruct Hcases as [(_ & Hab & _)|[(_ & _ & _ & _ & _ & Hcn & _)|(_ & _ & _ & _ & Ed' & Hw')]].
      * destruct Hab as [Hab|Hab].
        -- exists (Column move_x). split; [done|]. simpl. rewrite Hx'. by apply abs_is_Num.
        -- exists (Row move_y). split; [done|]. simpl. rewrite Hy'. by apply abs_is_Num.
      * exists MainDiagonal. split; [done|]. simpl. rewrite Hc'. by apply abs_is_Num.
      * exists AntiDiagonal. split; [done|]. simpl line_index. rewrite Hd'.
        rewrite Hw' in Hw. apply andb_true_iff in Hw as [_ Hw]. done.
    + intros (l & Hl & Habs).
      destruct Hcases as [(Hw & _)|[(Hw & _)|(Ha' & Hb' & Ec' & Hcn & Ed' & Hw')]];
        [done|done|].
      destruct l as [c0|r0| |]; simpl in Hl; simpl line_index in Habs.
      * exfalso. destruct (decide (c0 = move_x)) as [->|Hne].
        -- rewrite Hx' in Habs. by apply abs_is_Num in Habs.
        -- rewrite Hoth in Habs by (clear - Hx Hy Hl Hne; lia).
           pose proof (Hst (Column c0) Hl eq_refl) as Hs0. simpl line_index in Hs0.
           rewrite Hs0 in Habs. apply abs_is_Num in Habs.
           exact (accepted_no_line (Column c0) Hl _ Hs0 Habs).
      * exfalso. destruct (decide (r0 = move_y)) as [->|Hne].
        -- rewrite Hy' in Habs. by apply abs_is_Num in Habs.
        -- rewrite Hoth in Habs by (clear - Hx Hy Hl Hne; lia).
           pose proof (Hst (Row r0) Hl eq_refl) as Hs0. simpl line_index in Hs0.
           rewrite Hs0 in Habs. apply abs_is_Num in Habs.
           exact (accepted_no_line (Row r0) Hl _ Hs0 Habs).
      * exfalso. rewrite Hc' in Habs. apply abs_is_Num in Habs.
        destruct (Z.eqb_spec move_x move_y) as [Exy|Exy]; [by apply Hcn|]. congruence.
      * rewrite Hd' in Habs. rewrite Hw'. apply abs_is_Num in Habs.
        destruct (Z.abs (move_x - (n - 1)) =? move_y); simpl; [by apply Z.eqb_eq|]. congruence.
Qed.

End Accepted.

Lemma endTurn_Inv n s :
  1 <= n -> Board n s -> gameOver s = false ->
  turnCount s + 1 = occupied_count (squares s) ->
  Inv n (endTurn s).
Proof.
  intros Hn [Hg Hq Hp Hc Hpl Hst Hdg Hfl] Hrun Ht. unfold endTurn.
  destruct (victoryFlag s) eqn:Hw.
  - split; [split|..]; cbn; rewrite ?Hw; done.
  - rewrite Hq. destruct (n * n <=? turnCount s + 1) eqn:Hfull.
    + split; [split|..]; cbn; rewrite ?Hw; done.
    + split; [split|..]; cbn; rewrite ?Hw, ?Hfull; try done.
      * destruct (currentPlayer s =? PLAYER_ONE); auto.
      * intros l Hl. destruct (Hdg l Hl) as (d & Hd & [->|[? _]]); [|done].
        exists (line_total n l (squares s)). auto.
Qed.

Lemma set_message_Inv n m s : Inv n s -> Inv n (set_message m s).
Proof. intros [[] ? ?]. split; [split|..]; done. Qed.

Lemma target_element_Div e s i sq :
  target_element e s = Some (Div i sq) ->
  target e = OnSquare i /\ squares s !! i = Some sq.
Proof.
  unfold target_element. destruct (target e) as [j|]; [|done].
  destruct (squares s !! j) as [q|] eqn:E; [|done]. simpl. by intros [= -> ->].
Qed.

(** What [drop] does with a legal turn. *)
Lemma drop_legal e s object :
  target_element e s = Some object ->
  gameOver s = false ->
  piece_value (getData e) = currentPlayer s ->
  isOccupied object = false ->
  exists i sq, object = Div i sq /\ squares s !! i = Some sq /\ childNodes sq = [] /\
               drop e s = endTurn (takeTurn i sq (getData e) s).
Proof.
  intros Ht Hrun Hp Hocc. destruct object as [i sq|]; [|done].
  exists i, sq. destruct (target_element_Div _ _ _ _ Ht) as [_ Hi].
  split_and!; [done|done|by apply (isOccupied_Div i)|].
  unfold drop. rewrite Ht, piece_of_text, Hrun, Hp, Z.eqb_refl, Hocc. done.
Qed.

Lemma drop_Inv n e s : 1 <= n -> Inv n s -> Inv n (drop e s).
Proof.
  intros Hn HI.
  destruct (target_element e s) as [object|] eqn:Ht; [|by unfold drop; rewrite Ht].
  destruct (gameOver s) eqn:Hrun;
    [|destruct (Z.eqb_spec (piece_value (getData e)) (currentPlayer s)) as [Hp|Hp];
      [destruct (isOccupied object) eqn:Hocc|]].
  - unfold drop. rewrite Ht, Hrun. simpl. by apply set_message_Inv.
  - unfold drop. rewrite Ht, Hrun, piece_of_text, Hp, Z.eqb_refl, Hocc. simpl.
    by apply set_message_Inv.
  - destruct (drop_legal e s object Ht Hrun Hp Hocc) as (i & sq & -> & Hi & Hfree & ->).
    apply endTurn_Inv; [done|by eapply accepted_Board| |].
    + by destruct (accepted_frame s i sq (getData e)) as (_ & _ & _ & -> & _).
    + destruct (accepted_frame s i sq (getData e)) as (_ & _ & _ & _ & _ & ->).
      rewrite (accepted_occupied s i sq (getData e) Hi Hfree).
      by destruct HI as [_ -> _].
  - unfold drop. rewrite Ht, Hrun, piece_of_text.
    apply Z.eqb_neq in Hp. rewrite Hp. simpl. by apply set_message_Inv.
Qed.

Lemma resetGame_preserves n s : 1 <= n -> Inv n s -> Inv n (resetGame s).
Proof.
  intros Hn [[Hg Hq Hp Hc _ _ _ _] _ _]. apply resetGame_Inv; try done.
  eapply Forall_impl; [exact Hc|]. intros sq [[_ ?]|(p & Hp' & _)] E; [done|congruence].
Qed.

Theorem reachable_Inv n s : 1 <= n -> reachable n s -> Inv n s.
Proof.
  intros Hn H. induction H as [s [= <-]|s [e|] _ IH].
  - by apply built_Inv.
  - by apply drop_Inv.
  - by apply resetGame_preserves.
Qed.

Lemma reachable_run n acts : reachable n (run n acts).
Proof.
  unfold run. induction acts as [|a acts IH] using rev_ind.
  - by constructor.
  - rewrite foldl_snoc. by constructor.
Qed.

(** ** Move attempts *)

Lemma drop_check e s object :
  target_element e s = Some object ->
  match attemptMove_check (piece_value (getData e)) (isOccupied object) s with
  | Rejected why => drop e s = set_message (reason_message why) s
  | Accepted =>
      exists i sq, object = Div i sq /\ squares s !! i = Some sq /\ childNodes sq = [] /\
                   drop e s = endTurn (takeTurn i sq (getData e) s)
  end.
Proof.
  intros Ht. unfold attemptMove_check.
  destruct (gameOver s) eqn:Hrun.
  { unfold drop. by rewrite Ht, Hrun. }
  destruct (Z.eqb_spec (piece_value (getData e)) (currentPlayer s)) as [Hp|Hp]; simpl.
  - destruct (isOccupied object) eqn:Hocc.
    + unfold drop. by rewrite Ht, Hrun, piece_of_text, Hp, Z.eqb_refl, Hocc.
    + by apply drop_legal.
  - unfold drop. rewrite Ht, Hrun, piece_of_text.
    apply Z.eqb_neq in Hp. by rewrite Hp.
Qed.

(** C4. The rejection reasons of a move attempt are decided in a fixed order:
    when the game is over the drop is rejected as game-already-over whoever
    plays; otherwise, when the piece is not the current player's, as
    not-your-turn, naming the player whose turn it is; otherwise, when the
    target is occupied, as cell-occupied; otherwise the move is made
    ([takeTurn] then [endTurn]). *)
Theorem C4_precedence e s object :
  target_element e s = Some object ->
  match attemptMove_check (piece_value (getData e)) (isOccupied object) s with
  | Rejected why => drop e s = set_message (reason_message why) s
  | Accepted =>
      exists i sq, object = Div i sq /\ drop e s = endTurn (takeTurn i sq (getData e) s)
  end.
Proof.
  intros Ht. pose proof (drop_check e s object Ht) as H.
  destruct (attemptMove_check _ _ _); [done|].
  destruct H as (i & sq & ? & _ & _ & ?). by exists i, sq.
Qed.

(** C3. A rejected move attempt, whatever the reason, changes nothing but the
    status message: the squares of the board, the line sums, the current
    player, the turn count and the game-over and victory flags are those of
    the state before. *)
Theorem C3_rejected_unchanged e s object why :
  target_element e s = Some object ->
  attemptMove_check (piece_value (getData e)) (isOccupied object) s = Rejected why ->
  squares (drop e s) = squares s /\
  lineSums (drop e s) = lineSums s /\
  currentPlayer (drop e s) = currentPlayer s /\
  turnCount (drop e s) = turnCount s /\
  gameOver (drop e s) = gameOver s /\
  victoryFlag (drop e s) = victoryFlag s /\
  drop e s = set_message (reason_message why) s.
Proof.
  intros Ht Hc. pose proof (drop_check e s object Ht) as H.
  rewrite Hc in H. by rewrite H.
Qed.

Lemma endTurn_lineSums s : lineSums (endTurn s) = lineSums s.
Proof.
  unfold endTurn. destruct (victoryFlag s); [done|].
  by destruct (NUMBER_OF_SQUARES s <=? turnCount s + 1).
Qed.

(** C10. On an accepted move onto a cell [(x, y)] of the grid: when the
    column sum or the row sum reaches absolute value N, neither diagonal
    entry is touched, wherever the cell lies; when the cell is on the main
    diagonal and that diagonal's entry reaches absolute value N, the
    anti-diagonal entry is not touched; and every entry other than those of
    column x, row y and the diagonals through the cell keeps its value. *)
Theorem C10_diagonals_skipped e s i sq :
  let n := GRID_SIZE s in
  let x := data_x sq in
  let y := data_y sq in
  let s' := drop e s in
  target_element e s = Some (Div i sq) ->
  attemptMove_check (piece_value (getData e)) (isOccupied (Div i sq)) s = Accepted ->
  0 <= x < n -> 0 <= y < n ->
  (abs_is (lineSums s' !! x) n = true \/ abs_is (lineSums s' !! (n + y)) n = true ->
   lineSums s' !! (n * 2) = lineSums s !! (n * 2) /\
   lineSums s' !! (n * 2 + 1) = lineSums s !! (n * 2 + 1)) /\
  (x = y -> abs_is (lineSums s' !! (n * 2)) n = true ->
   lineSums s' !! (n * 2 + 1) = lineSums s !! (n * 2 + 1)) /\
  (forall j, j ≠ x -> j ≠ n + y ->
             ~ (j = n * 2 /\ x = y) -> ~ (j = n * 2 + 1 /\ x + y = n - 1) ->
             lineSums s' !! j = lineSums s !! j).
Proof.
  intros n x y s' Ht Hacc Hx Hy.
  pose proof (drop_check e s _ Ht) as H. rewrite Hacc in H.
  destruct H as (i' & sq' & [= <- <-] & _ & _ & Hd).
  unfold s'. rewrite Hd, endTurn_lineSums.
  unfold takeTurn, updateVictoryConditions.
  cbn [GRID_SIZE set_squares lineSums set_victory]. cbv zeta. fold n x y.
  set (p := if String.eqb (id_text (getData e)) "player-1" then PLAYER_ONE else PLAYER_TWO).
  set (ls2 := add_at (n + y) p (add_at x p (lineSums s))).
  assert (Hne : forall (ls : gmap Z num) a b, a ≠ b -> add_at a p ls !! b = ls !! b)
    by (intros; by apply add_at_ne).
  assert (H2 : forall j, j ≠ x -> j ≠ n + y -> ls2 !! j = lineSums s !! j).
  { intros j ? ?. unfold ls2. by rewrite !Hne by lia. }
  clearbody ls2.
  destruct (abs_is (ls2 !! x) n || abs_is (ls2 !! (n + y)) n) eqn:Hv2; cbn [negb andb].
  { cbn [negb andb lineSums set_victory]. split_and!.
    - intros _. split; apply H2; lia.
    - intros _ _. apply H2; lia.
    - intros j ? ? _ _. by apply H2. }
  destruct (Z.eqb_spec x y) as [Exy|Exy].
  - destruct (abs_is (add_at (n * 2) p ls2 !! (n * 2)) n) eqn:Hv3; cbn [negb andb].
    + cbn [negb andb lineSums set_victory]. split_and!.
      * intros Hor. exfalso. rewrite ?Hne in Hor by lia.
        apply orb_false_iff in Hv2 as [E1 E2]. rewrite E1, E2 in Hor. by destruct Hor.
      * intros _ _. rewrite Hne by lia. apply H2; lia.
      * intros j ? ? Hj _. rewrite Hne by (intros <-; by apply Hj). by apply H2.
    + destruct (Z.eqb_spec (Z.abs (x - (n - 1))) y) as [Ead|Ead]; cbn [negb andb lineSums set_victory].
      * split_and!.
        -- intros Hor. exfalso. rewrite ?Hne in Hor by lia.
        apply orb_false_iff in Hv2 as [E1 E2]. rewrite E1, E2 in Hor. by destruct Hor.
        -- intros _. rewrite Hne by lia. by rewrite Hv3.
        -- intros j ? ? Hj Hj'. rewrite !Hne; [by apply H2|..].
           ++ intros <-. by apply Hj.
           ++ intros <-. apply Hj'. split; [done|]. lia.
      * split_and!.
        -- intros Hor. exfalso. rewrite ?Hne in Hor by lia.
        apply orb_false_iff in Hv2 as [E1 E2]. rewrite E1, E2 in Hor. by destruct Hor.
        -- intros _. by rewrite Hv3.
        -- intros j ? ? Hj _. rewrite Hne by (intros <-; by apply Hj). by apply H2.
  - destruct (Z.eqb_spec (Z.abs (x - (n - 1))) y) as [Ead|Ead]; cbn [negb andb lineSums set_victory].
    + split_and!.
      * intros Hor. exfalso. rewrite ?Hne in Hor by lia.
        apply orb_false_iff in Hv2 as [E1 E2]. rewrite E1, E2 in Hor. by destruct Hor.
      * done.
      * intros j ? ? _ Hj'. rewrite Hne; [by apply H2|].
        intros <-. apply Hj'. split; [done|]. lia.
    + split_and!.
      * intros Hor. apply orb_false_iff in Hv2 as [E1 E2].
        rewrite E1, E2 in Hor. by destruct Hor.
      * done.
      * intros j ? ? _ _. by apply H2.
Qed.

(** ** Fresh and reset games *)

Lemma clear_to_board (l k : list Square) :
  Forall2 same_place l k ->
  Forall (fun sq => childNodes sq = [] -> className sq = "square") l ->
  Forall (fun sq => childNodes sq = [] /\ className sq = "square") k ->
  map (fun sq => clearSquare (length (childNodes sq)) sq) l = k.
Proof.
  induction 1 as [|a b l k [Hx Hy] _ IH]; intros Hl Hk; [done|].
  apply Forall_cons in Hl as [Ha Hl], Hk as [[Hb1 Hb2] Hk].
  simpl. rewrite IH by done. f_equal.
  rewrite clearSquare_spec by done. destruct b as [bx by' bc bch]; simpl in *.
  subst. f_equal. destruct (childNodes a); [by apply Ha|done].
Qed.

Lemma board_all_empty n :
  Forall (fun sq => childNodes sq = [] /\ className sq = "square") (createGameBoard n).
Proof. apply Forall_forall. intros sq Hsq. by apply (board_empty n). Qed.

Lemma built_squares n : squares (resetGame (built n)) = createGameBoard n.
Proof.
  simpl. apply clear_to_board.
  - apply Forall2_same_length_lookup_2; [done|].
    intros i a b Ha Hb. rewrite Ha in Hb. by injection Hb as ->.
  - eapply Forall_impl; [apply board_all_empty|]. by intros sq [_ ?] _.
  - apply board_all_empty.
Qed.

Lemma resetGame_squares n s : Inv n s -> squares (resetGame s) = createGameBoard n.
Proof.
  intros [[_ _ Hp Hc _ _ _ _] _ _]. simpl. apply clear_to_board; [done| |].
  - eapply Forall_impl; [exact Hc|].
    intros sq [[_ ?]|(p & Hp' & _)] E; [done|congruence].
  - apply board_all_empty.
Qed.

(** Resetting a reachable game gives back the state the page started in. *)
Lemma resetGame_initial n s : Inv n s -> resetGame s = resetGame (built n).
Proof.
  intros HI. pose proof (resetGame_squares n s HI) as Hs.
  pose proof (built_squares n) as Hb.
  destruct HI as [[Hg Hq _ _ _ _ _ _] _ _].
  unfold resetGame in *. cbn [squares] in Hs, Hb. rewrite Hs, Hb, Hg, Hq. done.
Qed.

Lemma total_ones (sqs : list Square) : total (fun _ => 1) sqs = Z.of_nat (length sqs).
Proof. induction sqs as [|a sqs IH]; simpl length; simpl total; lia. Qed.

Lemma board_length n : 0 <= n -> length (createGameBoard n) = Z.to_nat (n * n).
Proof. intros Hn. pose proof (board_size n Hn) as H. rewrite total_ones in H. lia. Qed.

Lemma zeroSums_size m : size (zeroSums m) = Z.to_nat m.
Proof.
  unfold zeroSums. rewrite <- (length_seqZ 0 m).
  pose proof (NoDup_seqZ 0 m) as Hnd. revert Hnd. generalize (seqZ 0 m). intros l.
  induction l as [|a l IH] using rev_ind; intros Hnd; [done|].
  apply NoDup_app in Hnd as (Hl & Hdisj & _).
  rewrite foldl_snoc, length_app. simpl. rewrite map_size_insert_None.
  - rewrite IH by done. lia.
  - clear IH. assert (Ha : a ∉ l) by (intros Hin; apply (Hdisj a Hin), list_elem_of_here).
    revert Ha. generalize (∅ : gmap Z num) (lookup_empty (M := gmap Z) (A := num) a).
    induction l as [|b l IH]; intros base Hbase Ha; simpl; [done|].
    apply IH.
    + by apply NoDup_cons in Hl as [_ ?].
    + intros x Hx. apply Hdisj. by apply list_elem_of_further.
    + rewrite lookup_insert_ne; [done|]. intros ->. apply Ha, list_elem_of_here.
    + intros Hin. by apply Ha, list_elem_of_further.
Qed.

(** C5. For every grid size N >= 1, a freshly initialized game and a game
    just reset both have turn count 0, player one to move, the game not
    over, the N x N board as first built with every square empty, a line-sum
    table holding 0 at each of the indices 0 .. 2N+1 and nothing else (so of
    length 2N+2), and the status "Player 1 starts the game", made of player
    one's display name. *)
Theorem C5_fresh_state n s :
  1 <= n ->
  initTicTacToe n None = Some s \/ (exists s0, reachable n s0 /\ s = resetGame s0) ->
  turnCount s = 0 /\ currentPlayer s = PLAYER_ONE /\ gameOver s = false /\
  GRID_SIZE s = n /\
  squares s = createGameBoard n /\
  length (squares s) = Z.to_nat (n * n) /\
  (forall sq, sq ∈ squares s -> occupant sq = None) /\
  (forall i, lineSums s !! i = if decide (0 <= i < 2 * n + 2) then Some (Num 0) else None) /\
  size (lineSums s) = Z.to_nat (2 * n + 2) /\
  message s = getPlayerName PLAYER_ONE +:+ " starts the game" /\
  message s = "Player 1 starts the game".
Proof.
  intros Hn Hs.
  assert (E : s = resetGame (built n)).
  { destruct Hs as [[= <-]|(s0 & Hr & ->)]; [done|].
    apply resetGame_initial. by apply reachable_Inv. }
  subst s. pose proof (built_squares n) as Hb.
  split_and!; try done.
  - rewrite Hb. apply board_length. lia.
  - intros sq Hsq%resetGame_childNodes. unfold occupant. by rewrite Hsq.
  - intros i. cbn [lineSums resetGame built GRID_SIZE]. rewrite zeroSums_lookup.
    destruct (decide (0 <= i < n * 2 + 2)), (decide (0 <= i < 2 * n + 2)); try done; lia.
  - cbn [lineSums resetGame built GRID_SIZE]. rewrite zeroSums_size. lia.
Qed.

Lemma endTurn_GRID_SIZE s : GRID_SIZE (endTurn s) = GRID_SIZE s.
Proof.
  unfold endTurn. destruct (victoryFlag s); [done|].
  by destruct (NUMBER_OF_SQUARES s <=? turnCount s + 1).
Qed.

Lemma drop_GRID_SIZE e s : GRID_SIZE (drop e s) = GRID_SIZE s.
Proof.
  destruct (target_element e s) as [object|] eqn:Ht; [|by unfold drop; rewrite Ht].
  pose proof (drop_check e s object Ht) as H.
  destruct (attemptMove_check _ _ _); [by rewrite H|].
  destruct H as (i & sq & _ & _ & _ & ->). rewrite endTurn_GRID_SIZE.
  unfold takeTurn.
  by destruct (updateVictoryConditions_frame (data_x sq) (data_y sq)
    (if String.eqb (id_text (getData e)) "player-1" then PLAYER_ONE else PLAYER_TWO)
    (set_squares (<[i := mkSquare (data_x sq) (data_y sq)
                          (className sq +:+ " " +:+ id_text (getData e))
                          (childNodes sq ++ [getData e])]> (squares s)) s)) as [? _].
Qed.

Lemma reachable_GRID_SIZE n s : reachable n s -> GRID_SIZE s = n.
Proof.
  induction 1 as [s [= <-]|s [e|] _ IH]; [done| |done].
  simpl. by rewrite drop_GRID_SIZE.
Qed.

Lemma resetGame_twice s : resetGame (resetGame s) = resetGame s.
Proof.
  unfold resetGame. cbn [GRID_SIZE NUMBER_OF_SQUARES squares]. f_equal.
  rewrite map_map. apply map_ext. intros sq.
  rewrite (clearSquare_spec _ sq) by done. simpl. done.
Qed.

(** C6. Resetting is idempotent and always possible: from any reachable
    state, also in the middle of a game, a reset yields a reachable state of
    the same grid size, a second reset right after it changes nothing, and
    (for N >= 1) the state reached is the one the game started in. *)
Theorem C6_reset_idempotent n s :
  reachable n s ->
  resetGame (resetGame s) = resetGame s /\
  GRID_SIZE (resetGame s) = n /\
  reachable n (resetGame s) /\
  (1 <= n -> initTicTacToe n None = Some (resetGame s)).
Proof.
  intros Hr. split_and!.
  - apply resetGame_twice.
  - simpl. by apply reachable_GRID_SIZE.
  - apply (reach_act n s AReset Hr).
  - intros Hn. simpl. f_equal. symmetry. apply resetGame_initial. by apply reachable_Inv.
Qed.

(** C7. At every point of every run of the game, the turn count equals the
    number of occupied squares of the board, and lies between 0 and N*N. *)
Theorem C7_turn_count n s :
  1 <= n -> reachable n s ->
  turnCount s = occupied_count (squares s) /\ 0 <= turnCount s <= n * n.
Proof.
  intros Hn Hr. destruct (reachable_Inv n s Hn Hr) as [[_ _ Hp _ _ _ _ _] Ht _].
  split; [done|]. rewrite Ht. by apply occupied_count_le.
Qed.

(** ** Line sums and the end of the game *)

Lemma all_heldb_spec n l p s : all_heldb n l p s = true <-> all_held n l p s.
Proof.
  unfold all_heldb, all_held. rewrite forallb_forall. split.
  - intros H sq Hsq Hon. apply list_elem_of_In, H in Hsq.
    rewrite Hon in Hsq. simpl in Hsq. by apply bool_decide_eq_true in Hsq.
  - intros H sq Hsq%list_elem_of_In. destruct (on_line n l sq) eqn:Hon; [|done].
    simpl. apply bool_decide_eq_true. by apply H.
Qed.

(** C1, as stated, fails: after that game every cell of the main diagonal
    holds a piece of player one, yet the diagonal's sum is 2, not 3, because
    the winning move was recognised on its row and the diagonal was not
    updated. *)
Lemma C1_counterexample :
  reachable 3 (run 3 row_and_diagonal) /\
  all_held 3 MainDiagonal player_1 (run 3 row_and_diagonal) /\
  lineSums (run 3 row_and_diagonal) !! line_index 3 MainDiagonal = Some (Num 2) /\
  ~ line_sum_claim 3 (run 3 row_and_diagonal) MainDiagonal.
Proof.
  assert (Hall : all_held 3 MainDiagonal player_1 (run 3 row_and_diagonal)).
  { apply all_heldb_spec. vm_compute. reflexivity. }
  assert (Hsum : lineSums (run 3 row_and_diagonal) !! line_index 3 MainDiagonal
                 = Some (Num 2)).
  { vm_compute. reflexivity. }
  split_and!; [apply reachable_run|done|done|].
  intros (v & Hv & _ & [_ H1] & _). specialize (H1 Hall).
  rewrite Hsum in Hv. injection Hv as <-. discriminate H1.
Qed.

(** C1, amended. In every reachable state of an N x N game (N >= 1) and for
    every line, the stored sum is an integer of absolute value at most N; it
    equals N (respectively -N) only if player one (respectively player two)
    holds every cell of the line; and a line wholly held by one player has
    sum N (respectively -N), except that a diagonal may stand one short, at
    N-1 (respectively -(N-1)), in a game that is over by a victory. *)
Theorem C1_line_sums n s l :
  1 <= n -> reachable n s -> is_line n l ->
  exists v, lineSums s !! line_index n l = Some (Num v) /\
    Z.abs v <= n /\
    (v = n -> all_held n l player_1 s) /\
    (v = - n -> all_held n l player_2 s) /\
    (all_held n l player_1 s ->
       v = n \/ (is_diagonal l = true /\ gameOver s = true /\ victoryFlag s = true /\
                 v = n - 1)) /\
    (all_held n l player_2 s ->
       v = - n \/ (is_diagonal l = true /\ gameOver s = true /\ victoryFlag s = true /\
                   v = - (n - 1))).
Proof.
  intros Hn Hr Hl.
  destruct (reachable_Inv n s Hn Hr) as [[_ _ Hp _ Hpl Hst Hdg _] _ Hov].
  pose proof (line_total_bound n Hn _ l Hp Hl) as Hb.
  pose proof (line_total_full n Hn _ l player_1 Hp Hl) as H1.
  pose proof (line_total_full n Hn _ l player_2 Hp Hl) as H2.
  unfold piece_value, PLAYER_ONE, PLAYER_TWO in H1, H2.
  fold (all_held n l player_1 s) in H1. fold (all_held n l player_2 s) in H2.
  destruct (is_diagonal l) eqn:Hd.
  - destruct (Hdg l Hd) as (d & Hlook & [->|(Hw & Hsum & Hlt)]).
    + exists (line_total n l (squares s)). split_and!; try done.
      * intros E. apply H1. lia.
      * intros E. apply H2. lia.
      * intros E%H1. left. lia.
      * intros E%H2. left. lia.
    + exists d. unfold PLAYER_ONE, PLAYER_TWO in Hpl.
      assert (Hgo : gameOver s = true) by (by rewrite Hov, Hw).
      split_and!; [done|lia|lia|lia|..].
      * intros E%H1. right. split_and!; try done. lia.
      * intros E%H2. right. split_and!; try done. lia.
  - exists (line_total n l (squares s)). split_and!; try done.
    + by apply Hst.
    + intros E. apply H1. lia.
    + intros E. apply H2. lia.
    + intros E%H1. left. lia.
    + intros E%H2. left. lia.
Qed.

Lemma victory_flag n s : 1 <= n -> Inv n s -> victory n s <-> victoryFlag s = true.
Proof.
  intros Hn [[_ _ _ _ _ _ _ Hfl] _ _]. rewrite Hfl. unfold victory.
  split; intros (l & Hl & H); exists l; (split; [done|]).
  - destruct H as [-> | ->]; apply abs_is_Num; lia.
  - destruct (lineSums s !! line_index n l) as [[z|]|]; try done.
    apply abs_is_Num in H.
    destruct (decide (z = n)) as [->|]; [by left|right]. do 2 f_equal. lia.
Qed.

(** C2. In every reachable state of an N x N game (N >= 1) the game is over
    exactly when some line sum has reached N or -N, or the turn count is N*N
    with no line sum there; and the accepted move that ends the game reports
    a win of the player who moved in the first case and a tie in the second,
    while after any other accepted move the game goes on. *)
Theorem C2_game_over n s :
  1 <= n -> reachable n s ->
  (gameOver s = true <-> victory n s \/ (turnCount s = n * n /\ ~ victory n s)) /\
  (forall e object,
     target_element e s = Some object ->
     attemptMove_check (piece_value (getData e)) (isOccupied object) s = Accepted ->
     let s' := drop e s in
     (victory n s' ->
        gameOver s' = true /\
        message s' = getPlayerName (piece_value (getData e)) +:+ " wins!") /\
     (~ victory n s' -> turnCount s' = n * n ->
        gameOver s' = true /\ message s' = "Tie game... you both lose!") /\
     (~ victory n s' -> turnCount s' ≠ n * n -> gameOver s' = false)).
Proof.
  intros Hn Hr. pose proof (reachable_Inv n s Hn Hr) as HI. split.
  - rewrite (victory_flag n s Hn HI).
    pose proof HI as [[_ _ Hp _ _ _ _ _] Ht Hov].
    pose proof (occupied_count_le n Hn _ Hp) as Hle. rewrite <- Ht in Hle.
    rewrite Hov. destruct (victoryFlag s); simpl.
    + split; auto.
    + rewrite Z.leb_le. split.
      * intros ?. right. split; [lia|done].
      * intros [?|[? _]]; [done|lia].
  - intros e object Ht Hacc s'.
    assert (Hr' : reachable n s') by apply (reach_act n s (ADrop e) Hr).
    pose proof (reachable_Inv n s' Hn Hr') as HI'.
    rewrite (victory_flag n s' Hn HI').
    pose proof HI' as [[_ _ Hp' _ _ _ _ _] Ht' _].
    pose proof (occupied_count_le n Hn _ Hp') as Hle. rewrite <- Ht' in Hle.
    clear HI' Hr' Hp' Ht'. revert Hle.
    pose proof (drop_check e s object Ht) as H. rewrite Hacc in H.
    destruct H as (i & sq & -> & Hi & Hfree & Hd).
    unfold attemptMove_check in Hacc.
    destruct (gameOver s) eqn:Hrun; [done|].
    destruct (Z.eqb_spec (piece_value (getData e)) (currentPlayer s)) as [Hpl|]; [|done].
    destruct (accepted_frame s i sq (getData e)) as (_ & Fq & _ & Fo & Fp & _).
    destruct HI as [[_ Hq _ _ _ _ _ _] _ _].
    unfold s'. rewrite Hd. unfold endTurn. rewrite Fq, Hq, Fo, Fp, Hrun, <- Hpl.
    destruct (victoryFlag (takeTurn i sq (getData e) s)) eqn:Hw.
    + cbn. rewrite ?Hw. intros _. split_and!; done.
    + destruct (Z.leb_spec (n * n) (turnCount (takeTurn i sq (getData e) s) + 1)) as [Hfull|Hfull];
        cbn; rewrite ?Hw; intros Hle; split_and!; try done; intros; lia.
Qed.

(** ** Grid sizes below one *)

(** C8, as stated, fails: [initTicTacToe] with grid size 0 rejects nothing.
    The page comes out initialized, with a game that has no squares. *)
Lemma C8_counterexample :
  initTicTacToe 0 None
  = Some (mkState 0 0 [] (zeroSums 2) "Player 1 starts the game" false false 1 0) /\
  ~ (forall gridSize, gridSize < 1 -> initTicTacToe gridSize None = None).
Proof.
  split; [reflexivity|]. intros H. specialize (H 0 ltac:(lia)). discriminate H.
Qed.

Lemma createGameBoard_small n : n < 1 -> createGameBoard n = [].
Proof. intros Hn. unfold createGameBoard. by rewrite seqZ_nil by lia. Qed.

Lemma drop_no_squares e s :
  squares s = [] -> squares (drop e s) = [] /\ turnCount (drop e s) = turnCount s.
Proof.
  intros Hs. destruct (target_element e s) as [object|] eqn:Ht;
    [|by unfold drop; rewrite Ht].
  pose proof (drop_check e s object Ht) as H.
  destruct (attemptMove_check _ _ _); [by rewrite H|].
  destruct H as (i & sq & _ & Hi & _). by rewrite Hs in Hi.
Qed.

(** C8, amended. Initialization with a grid size below 1 is not rejected:
    the page comes out initialized with a game of that grid size that has no
    squares, is not over and is at turn 0 with player one to start; in every
    state reachable from it the board still has no squares and the turn
    count is 0, so no piece is ever placed. *)
Theorem C8_small_grid n :
  n < 1 ->
  exists s, initTicTacToe n None = Some s /\
    GRID_SIZE s = n /\ squares s = [] /\ gameOver s = false /\ turnCount s = 0 /\
    currentPlayer s = PLAYER_ONE /\ message s = "Player 1 starts the game" /\
    forall s', reachable n s' -> squares s' = [] /\ turnCount s' = 0.
Proof.
  intros Hn. exists (resetGame (built n)).
  assert (Hb : squares (resetGame (built n)) = []).
  { simpl. by rewrite createGameBoard_small. }
  split_and!; try done.
  induction 1 as [s [= <-]|s [e|] _ [IH1 IH2]]; [done| |].
  - simpl. destruct (drop_no_squares e s IH1) as [? ->]. done.
  - simpl. by rewrite IH1.
Qed.

(** ** Coordinates outside the grid *)

(** C9, as stated, fails: nothing checks the coordinates. On a fresh 3 x 3
    game, [updateVictoryConditions] at x = 3, y = 0 returns normally and has
    added the piece twice to entry 3, the sum of row 0; and a drop onto a
    square whose attributes read (3, 0) is carried out as an ordinary move
    that passes the turn to player two. *)
Lemma C9_counterexample :
  lineSums (resetGame (built 3)) !! 3 = Some (Num 0) /\
  lineSums (updateVictoryConditions 3 0 PLAYER_ONE (resetGame (built 3))) !! 3
  = Some (Num 2) /\
  (let s := set_squares [mkSquare 3 0 "square" []] (resetGame (built 3)) in
   let s' := drop (mkEvent player_1 (OnSquare 0)) s in
   message s' = "Player 2's turn" /\ turnCount s' = 1 /\
   lineSums s' !! 3 = Some (Num 2)) /\
  ~ (forall x y p s, ~ (0 <= x < GRID_SIZE s /\ 0 <= y < GRID_SIZE s) ->
                     updateVictoryConditions x y p s = s).
Proof.
  split_and!;
    [vm_compute; reflexivity | vm_compute; reflexivity
    | cbv zeta; split_and!; vm_compute; reflexivity | ].
  intros H. specialize (H 3 0 PLAYER_ONE (resetGame (built 3))).
  assert (E : lineSums (updateVictoryConditions 3 0 PLAYER_ONE (resetGame (built 3))) !! 3
              = Some (Num 2)) by (vm_compute; reflexivity).
  rewrite H in E; [|simpl; lia]. vm_compute in E. discriminate E.
Qed.

Lemma add_at_is_Some i j p (ls : gmap Z num) :
  i = j \/ is_Some (ls !! j) -> is_Some (add_at i p ls !! j).
Proof.
  intros H. destruct (decide (i = j)) as [->|Hne].
  - rewrite add_at_eq. eauto.
  - rewrite add_at_ne by done. by destruct H.
Qed.

Lemma updateVictoryConditions_writes x y p s :
  is_Some (lineSums (updateVictoryConditions x y p s) !! x) /\
  is_Some (lineSums (updateVictoryConditions x y p s) !! (GRID_SIZE s + y)).
Proof.
  unfold updateVictoryConditions. cbv zeta.
  set (n := GRID_SIZE s). set (ls2 := add_at (n + y) p (add_at x p (lineSums s))).
  assert (H2x : is_Some (ls2 !! x)).
  { apply add_at_is_Some. right. apply add_at_is_Some. by left. }
  assert (H2y : is_Some (ls2 !! (n + y))) by (apply add_at_is_Some; by left).
  clearbody ls2.
  destruct (negb _ && (x =? y)); destruct (negb _ && (_ =? y));
    cbn [lineSums set_victory]; split; repeat (apply add_at_is_Some; right); done.
Qed.

(** C9, amended. There is no invalid-coordinate result and no bounds check.
    In every reachable state of an N x N game (N >= 1) the coordinates of a
    move are the attributes of the square dropped on, and these lie in
    [0, N); whatever integers it is given, [updateVictoryConditions] returns
    a state whose table has an entry at x and at N + y, and changes nothing
    but the table and the victory flag. *)
Theorem C9_coordinates n s :
  1 <= n -> reachable n s ->
  (forall e i sq, target_element e s = Some (Div i sq) ->
                  0 <= data_x sq < n /\ 0 <= data_y sq < n) /\
  (forall x y p,
     let s' := updateVictoryConditions x y p s in
     is_Some (lineSums s' !! x) /\ is_Some (lineSums s' !! (n + y)) /\
     squares s' = squares s /\ turnCount s' = turnCount s /\
     currentPlayer s' = currentPlayer s /\ gameOver s' = gameOver s /\
     message s' = message s).
Proof.
  intros Hn Hr. destruct (reachable_Inv n s Hn Hr) as [[Hg _ Hp _ _ _ _ _] _ _]. split.
  - intros e i sq [_ Hi]%target_element_Div. by eapply places_coords.
  - intros x y p s'.
    destruct (updateVictoryConditions_writes x y p s) as [H1 H2]. rewrite Hg in H2.
    destruct (updateVictoryConditions_frame x y p s) as (_ & _ & ? & ? & ? & ? & ?).
    by split_and!.
Qed.

(** ** Sample games *)

Example row_win_outcome :
  message (run 3 row_win) = "Player 1 wins!" /\ gameOver (run 3 row_win) = true /\
  lineSums (run 3 row_win) !! line_index 3 (Row 0) = Some (Num 3).
Proof. vm_compute. done. Qed.

Example diagonal_win_outcome :
  message (run 3 diagonal_win) = "Player 1 wins!" /\ gameOver (run 3 diagonal_win) = true /\
  lineSums (run 3 diagonal_win) !! 6 = Some (Num 3).
Proof. vm_compute. done. Qed.

Example drawn_game_outcome :
  message (run 3 drawn_game) = "Tie game... you both lose!" /\
  gameOver (run 3 drawn_game) = true /\ victoryFlag (run 3 drawn_game) = false /\
  turnCount (run 3 drawn_game) = 9.
Proof. vm_compute. done. Qed.

Example after_the_end :
  message (drop (mkEvent player_2 (OnSquare 8)) (run 3 row_win)) = "The game is already over!" /\
  message (drop (mkEvent player_1 (OnSquare 8)) (run 3 row_win)) = "The game is already over!".
Proof. vm_compute. done. Qed.

Example single_cell_game :
  message (run 1 [place 1 player_1 0 0]) = "Player 1 wins!" /\
  lineSums (run 1 [place 1 player_1 0 0]) !! line_index 1 MainDiagonal = Some (Num 0).
Proof. vm_compute. done. Qed.

(** Past the end of the table the sum read is [undefined] and the sum
    written back is [NaN]. *)
Example update_past_the_table :
  lineSums (updateVictoryConditions 9 0 PLAYER_ONE (run 3 [])) !! 9 = Some NaN.
Proof. vm_compute. done. Qed.

(** ** The theorems on the sample games *)

(** Each lemma below instantiates one of the theorems above on a sample
    game, with its hypotheses established by evaluation. *)


(** The main diagonal after the game [row_and_diagonal]. *)
Lemma C1_line_sums_witness :
  (1 <= 3 /\ reachable 3 (run 3 row_and_diagonal) /\ is_line 3 MainDiagonal) /\
  exists v, lineSums (run 3 row_and_diagonal) !! line_index 3 MainDiagonal = Some (Num v) /\
    Z.abs v <= 3 /\
    (v = 3 -> all_held 3 MainDiagonal player_1 (run 3 row_and_diagonal)) /\
    (v = - 3 -> all_held 3 MainDiagonal player_2 (run 3 row_and_diagonal)) /\
    (all_held 3 MainDiagonal player_1 (run 3 row_and_diagonal) ->
       v = 3 \/ (is_diagonal MainDiagonal = true /\
                 gameOver (run 3 row_and_diagonal) = true /\
                 victoryFlag (run 3 row_and_diagonal) = true /\ v = 3 - 1)) /\
    (all_held 3 MainDiagonal player_2 (run 3 row_and_diagonal) ->
       v = - 3 \/ (is_diagonal MainDiagonal = true /\
                   gameOver (run 3 row_and_diagonal) = true /\
                   victoryFlag (run 3 row_and_diagonal) = true /\ v = - (3 - 1))).
Proof.
  assert (H1 : 1 <= 3) by lia.
  pose proof (reachable_run 3 row_and_diagonal) as H2.
  split; [split_and!; [exact H1|exact H2|exact I]|].
  exact (C1_line_sums 3 (run 3 row_and_diagonal) MainDiagonal H1 H2 I).
Defined.

(** The state after [eight_moves], and the winning ninth move. *)
Lemma C2_game_over_witness :
  (1 <= 3 /\ reachable 3 (run 3 eight_moves)) /\
  (gameOver (run 3 eight_moves) = true <->
   victory 3 (run 3 eight_moves) \/
   (turnCount (run 3 eight_moves) = 3 * 3 /\ ~ victory 3 (run 3 eight_moves))) /\
  gameOver (drop (mkEvent player_1 (OnSquare 8)) (run 3 eight_moves)) = true /\
  message (drop (mkEvent player_1 (OnSquare 8)) (run 3 eight_moves)) = "Player 1 wins!".
Proof.
  assert (H1 : 1 <= 3) by lia.
  pose proof (reachable_run 3 eight_moves) as H2.
  destruct (C2_game_over 3 (run 3 eight_moves) H1 H2) as [Hiff Hmove].
  split; [by split|]. split; [exact Hiff|].
  assert (Ht : target_element (mkEvent player_1 (OnSquare 8)) (run 3 eight_moves)
               = Some (Div 8 (mkSquare 2 2 "square" []))) by (vm_compute; reflexivity).
  assert (Hacc : attemptMove_check (piece_value player_1)
                   (isOccupied (Div 8 (mkSquare 2 2 "square" []))) (run 3 eight_moves)
                 = Accepted) by (vm_compute; reflexivity).
  destruct (Hmove _ _ Ht Hacc) as (Hwin & _ & _).
  apply Hwin. exists (Row 2). split; [simpl; lia|]. left. vm_compute. reflexivity.
Defined.

(** Player one drops on the square already taken at (0, 0). *)
Lemma C3_rejected_unchanged_witness :
  (target_element (mkEvent player_1 (OnSquare 0)) (run 3 opening)
   = Some (Div 0 (mkSquare 0 0 "square player-1" [player_1])) /\
   attemptMove_check (piece_value player_1)
     (isOccupied (Div 0 (mkSquare 0 0 "square player-1" [player_1]))) (run 3 opening)
   = Rejected CellOccupied) /\
  squares (drop (mkEvent player_1 (OnSquare 0)) (run 3 opening)) = squares (run 3 opening) /\
  lineSums (drop (mkEvent player_1 (OnSquare 0)) (run 3 opening)) = lineSums (run 3 opening) /\
  currentPlayer (drop (mkEvent player_1 (OnSquare 0)) (run 3 opening))
  = currentPlayer (run 3 opening) /\
  turnCount (drop (mkEvent player_1 (OnSquare 0)) (run 3 opening)) = turnCount (run 3 opening) /\
  gameOver (drop (mkEvent player_1 (OnSquare 0)) (run 3 opening)) = gameOver (run 3 opening) /\
  victoryFlag (drop (mkEvent player_1 (OnSquare 0)) (run 3 opening))
  = victoryFlag (run 3 opening) /\
  drop (mkEvent player_1 (OnSquare 0)) (run 3 opening)
  = set_message (reason_message CellOccupied) (run 3 opening).
Proof.
  assert (Ht : target_element (mkEvent player_1 (OnSquare 0)) (run 3 opening)
               = Some (Div 0 (mkSquare 0 0 "square player-1" [player_1])))
    by (vm_compute; reflexivity).
  assert (Hc : attemptMove_check (piece_value player_1)
                 (isOccupied (Div 0 (mkSquare 0 0 "square player-1" [player_1])))
                 (run 3 opening) = Rejected CellOccupied) by (vm_compute; reflexivity).
  split; [by split|].
  exact (C3_rejected_unchanged _ _ _ _ Ht Hc).
Defined.

(** Player two drops on the free centre when it is player one's turn. *)
Lemma C4_precedence_witness :
  target_element (mkEvent player_2 (OnSquare 4)) (run 3 opening)
  = Some (Div 4 (mkSquare 1 1 "square" [])) /\
  drop (mkEvent player_2 (OnSquare 4)) (run 3 opening)
  = set_message "HEY! LISTEN! It's Player 1's turn!" (run 3 opening).
Proof.
  assert (Ht : target_element (mkEvent player_2 (OnSquare 4)) (run 3 opening)
               = Some (Div 4 (mkSquare 1 1 "square" []))) by (vm_compute; reflexivity).
  split; [exact Ht|].
  exact (C4_precedence (mkEvent player_2 (OnSquare 4)) (run 3 opening) _ Ht).
Defined.

(** A reset two moves into a game. *)
Lemma C5_fresh_state_witness :
  (1 <= 3 /\
   (initTicTacToe 3 None = Some (resetGame (run 3 opening)) \/
    exists s0, reachable 3 s0 /\ resetGame (run 3 opening) = resetGame s0)) /\
  turnCount (resetGame (run 3 opening)) = 0 /\
  currentPlayer (resetGame (run 3 opening)) = PLAYER_ONE /\
  gameOver (resetGame (run 3 opening)) = false /\
  squares (resetGame (run 3 opening)) = createGameBoard 3 /\
  size (lineSums (resetGame (run 3 opening))) = 8%nat /\
  message (resetGame (run 3 opening)) = "Player 1 starts the game".
Proof.
  assert (H1 : 1 <= 3) by lia.
  assert (H2 : initTicTacToe 3 None = Some (resetGame (run 3 opening)) \/
               exists s0, reachable 3 s0 /\ resetGame (run 3 opening) = resetGame s0).
  { right. exists (run 3 opening). split; [apply reachable_run|reflexivity]. }
  destruct (C5_fresh_state 3 (resetGame (run 3 opening)) H1 H2)
    as (Ht & Hp & Hg & _ & Hs & _ & _ & _ & Hz & _ & Hm).
  split; [by split|]. by split_and!.
Defined.

(** Two resets in a row, two moves into a game. *)
Lemma C6_reset_idempotent_witness :
  reachable 3 (run 3 opening) /\
  resetGame (resetGame (run 3 opening)) = resetGame (run 3 opening) /\
  GRID_SIZE (resetGame (run 3 opening)) = 3 /\
  reachable 3 (resetGame (run 3 opening)) /\
  (1 <= 3 -> initTicTacToe 3 None = Some (resetGame (run 3 opening))).
Proof.
  pose proof (reachable_run 3 opening) as H.
  split; [exact H|]. exact (C6_reset_idempotent 3 (run 3 opening) H).
Defined.

(** The turn count two moves into a game. *)
Lemma C7_turn_count_witness :
  (1 <= 3 /\ reachable 3 (run 3 opening)) /\
  turnCount (run 3 opening) = occupied_count (squares (run 3 opening)) /\
  0 <= turnCount (run 3 opening) <= 3 * 3.
Proof.
  assert (H1 : 1 <= 3) by lia.
  pose proof (reachable_run 3 opening) as H2.
  split; [by split|]. exact (C7_turn_count 3 (run 3 opening) H1 H2).
Defined.

(** A game of grid size 0. *)
Lemma C8_small_grid_witness :
  0 < 1 /\
  exists s, initTicTacToe 0 None = Some s /\
    GRID_SIZE s = 0 /\ squares s = [] /\ gameOver s = false /\ turnCount s = 0 /\
    currentPlayer s = PLAYER_ONE /\ message s = "Player 1 starts the game" /\
    forall s', reachable 0 s' -> squares s' = [] /\ turnCount s' = 0.
Proof.
  assert (H : 0 < 1) by lia.
  split; [exact H|]. exact (C8_small_grid 0 H).
Defined.

(** The squares and the table two moves into a game. *)
Lemma C9_coordinates_witness :
  (1 <= 3 /\ reachable 3 (run 3 opening)) /\
  (forall e i sq, target_element e (run 3 opening) = Some (Div i sq) ->
                  0 <= data_x sq < 3 /\ 0 <= data_y sq < 3) /\
  (forall x y p,
     is_Some (lineSums (updateVictoryConditions x y p (run 3 opening)) !! x) /\
     is_Some (lineSums (updateVictoryConditions x y p (run 3 opening)) !! (3 + y)) /\
     squares (updateVictoryConditions x y p (run 3 opening)) = squares (run 3 opening) /\
     turnCount (updateVictoryConditions x y p (run 3 opening)) = turnCount (run 3 opening) /\
     currentPlayer (updateVictoryConditions x y p (run 3 opening))
     = currentPlayer (run 3 opening) /\
     gameOver (updateVictoryConditions x y p (run 3 opening)) = gameOver (run 3 opening) /\
     message (updateVictoryConditions x y p (run 3 opening)) = message (run 3 opening)).
Proof.
  assert (H1 : 1 <= 3) by lia.
  pose proof (reachable_run 3 opening) as H2.
  split; [by split|]. exact (C9_coordinates 3 (run 3 opening) H1 H2).
Defined.

(** The ninth move of [row_and_diagonal] wins on row 2 and leaves both
    diagonal entries as they were. *)
Lemma C10_diagonals_skipped_witness :
  (target_element (mkEvent player_1 (OnSquare 8)) (run 3 eight_moves)
   = Some (Div 8 (mkSquare 2 2 "square" [])) /\
   attemptMove_check (piece_value player_1)
     (isOccupied (Div 8 (mkSquare 2 2 "square" []))) (run 3 eight_moves) = Accepted /\
   0 <= 2 < GRID_SIZE (run 3 eight_moves)) /\
  abs_is (lineSums (drop (mkEvent player_1 (OnSquare 8)) (run 3 eight_moves)) !! (3 + 2)) 3
  = true /\
  lineSums (drop (mkEvent player_1 (OnSquare 8)) (run 3 eight_moves)) !! (3 * 2)
  = lineSums (run 3 eight_moves) !! (3 * 2) /\
  lineSums (drop (mkEvent player_1 (OnSquare 8)) (run 3 eight_moves)) !! (3 * 2 + 1)
  = lineSums (run 3 eight_moves) !! (3 * 2 + 1).
Proof.
  assert (Ht : target_element (mkEvent player_1 (OnSquare 8)) (run 3 eight_moves)
               = Some (Div 8 (mkSquare 2 2 "square" []))) by (vm_compute; reflexivity).
  assert (Hacc : attemptMove_check (piece_value player_1)
                   (isOccupied (Div 8 (mkSquare 2 2 "square" []))) (run 3 eight_moves)
                 = Accepted) by (vm_compute; reflexivity).
  assert (Hg : GRID_SIZE (run 3 eight_moves) = 3) by (vm_compute; reflexivity).
  assert (Hx : 0 <= 2 < GRID_SIZE (run 3 eight_moves)) by (rewrite Hg; lia).
  assert (Hrow : abs_is (lineSums (drop (mkEvent player_1 (OnSquare 8)) (run 3 eight_moves))
                           !! (3 + 2)) 3 = true) by (vm_compute; reflexivity).
  split; [by split_and!|]. split; [exact Hrow|].
  destruct (C10_diagonals_skipped (mkEvent player_1 (OnSquare 8)) (run 3 eight_moves) 8
              (mkSquare 2 2 "square" []) Ht Hacc Hx Hx) as (Hskip & _ & _).
  apply Hskip. right. rewrite Hg. exact Hrow.
Defined.

(** ** Line sums as piece counts *)

Lemma total_sub f g sqs :
  total (fun sq => f sq - g sq) sqs = total f sqs - total g sqs.
Proof. induction sqs as [|a sqs IH]; simpl; lia. Qed.

Lemma holds_occupant p sq : holds p sq = true <-> occupant sq = Some p.
Proof. unfold holds. apply bool_decide_eq_true. Qed.

Lemma square_value_holds sq :
  square_value sq
  = (if holds player_1 sq then 1 else 0) - (if holds player_2 sq then 1 else 0).
Proof.
  unfold square_value, holds. by destruct (occupant sq) as [[]|].
Qed.

Lemma line_total_pieces n l sqs :
  line_total n l sqs = pieces_on n l player_1 sqs - pieces_on n l player_2 sqs.
Proof.
  unfold line_total, pieces_on. rewrite <- total_sub. apply total_pointwise.
  intros sq _. rewrite square_value_holds. by destruct (on_line n l sq).
Qed.

(** X1. In every reachable state of an N x N game (N >= 1) the entry of a
    column or row is the number of its cells holding a piece of player one
    minus the number holding a piece of player two; so is the entry of a
    diagonal as long as no victory is flagged, and once one is flagged a
    diagonal's entry is that difference or lacks the winner's last piece. *)
Theorem X1_sums_count_pieces n s l :
  1 <= n -> reachable n s -> is_line n l ->
  exists v, lineSums s !! line_index n l = Some (Num v) /\
    (is_diagonal l = false \/ victoryFlag s = false ->
     v = pieces_on n l player_1 (squares s) - pieces_on n l player_2 (squares s)) /\
    (v = pieces_on n l player_1 (squares s) - pieces_on n l player_2 (squares s) \/
     (is_diagonal l = true /\ victoryFlag s = true /\
      v + currentPlayer s
      = pieces_on n l player_1 (squares s) - pieces_on n l player_2 (squares s))).
Proof.
  intros Hn Hr Hl. rewrite <- line_total_pieces.
  destruct (reachable_Inv n s Hn Hr) as [[_ _ _ _ _ Hst Hdg _] _ _].
  destruct (is_diagonal l) eqn:Hd.
  - destruct (Hdg l Hd) as (d & Hlook & [->|(Hw & Hsum & _)]).
    + eexists. split; [exact Hlook|]. split; auto.
    + exists d. split; [exact Hlook|]. split.
      * intros [?|?]; congruence.
      * right. by split_and!.
  - eexists. split; [by apply Hst|]. split; auto.
Qed.

(** ** Who holds a line *)

Lemma accepted_check player occupied s :
  attemptMove_check player occupied s = Accepted ->
  gameOver s = false /\ player = currentPlayer s /\ occupied = false.
Proof.
  unfold attemptMove_check. destruct (gameOver s); [done|].
  destruct (Z.eqb_spec player (currentPlayer s)); [|done].
  by destruct occupied.
Qed.

Lemma endTurn_squares s : squares (endTurn s) = squares s.
Proof.
  unfold endTurn. destruct (victoryFlag s); [done|].
  by destruct (NUMBER_OF_SQUARES s <=? turnCount s + 1).
Qed.

Lemma endTurn_victoryFlag s : victoryFlag (endTurn s) = victoryFlag s.
Proof.
  unfold endTurn. destruct (victoryFlag s) eqn:E; [done|].
  by destruct (NUMBER_OF_SQUARES s <=? turnCount s + 1).
Qed.

Lemma endTurn_turnCount s : turnCount (endTurn s) = turnCount s + 1.
Proof.
  unfold endTurn. destruct (victoryFlag s); [done|].
  by destruct (NUMBER_OF_SQUARES s <=? turnCount s + 1).
Qed.

(** [endTurn] passes the turn exactly when it leaves the game running. *)
Lemma endTurn_currentPlayer s :
  gameOver s = false ->
  currentPlayer (endTurn s)
  = if gameOver (endTurn s) then currentPlayer s
    else if currentPlayer s =? PLAYER_ONE then PLAYER_TWO else PLAYER_ONE.
Proof.
  intros Hrun. unfold endTurn. destruct (victoryFlag s); [done|].
  destruct (NUMBER_OF_SQUARES s <=? turnCount s + 1); [done|].
  cbn. by rewrite Hrun.
Qed.

Lemma endTurn_won s : victoryFlag s = true -> gameOver (endTurn s) = true.
Proof. intros H. unfold endTurn. by rewrite H. Qed.

Lemma held_line_total n s l p :
  1 <= n -> Inv n s -> is_line n l ->
  all_held n l p s <-> line_total n l (squares s) = n * piece_value p.
Proof.
  intros Hn [[_ _ Hp _ _ _ _ _] _ _] Hl. symmetry. by apply line_total_full.
Qed.

Lemma held_line_flag n s l p :
  1 <= n -> Inv n s -> is_line n l -> all_held n l p s -> victoryFlag s = true.
Proof.
  intros Hn HI Hl Hh. apply (held_line_total n s l p Hn HI Hl) in Hh.
  destruct HI as [[_ _ _ _ _ Hst Hdg Hfl] _ _].
  assert (Habs : Z.abs (n * piece_value p) = n).
  { destruct p; unfold piece_value, PLAYER_ONE, PLAYER_TWO; lia. }
  destruct (is_diagonal l) eqn:Hd.
  - destruct (Hdg l Hd) as (d & Hlook & [->|(Hw & _)]); [|done].
    apply Hfl. exists l. split; [done|]. rewrite Hlook, Hh. by apply abs_is_Num.
  - apply Hfl. exists l. split; [done|]. rewrite (Hst l Hl Hd), Hh. by apply abs_is_Num.
Qed.

Lemma flag_held_line n s :
  1 <= n -> Inv n s -> victoryFlag s = true ->
  exists l p, is_line n l /\ all_held n l p s.
Proof.
  intros Hn HI Hw. pose proof HI as [[_ _ _ _ _ Hst Hdg Hfl] _ _].
  apply Hfl in Hw as (l & Hl & Habs). exists l.
  assert (Ht : Z.abs (line_total n l (squares s)) = n).
  { destruct (is_diagonal l) eqn:Hd.
    - destruct (Hdg l Hd) as (d & Hlook & Hcase). rewrite Hlook in Habs.
      apply abs_is_Num in Habs. destruct Hcase as [->|(_ & _ & ?)]; [done|lia].
    - rewrite (Hst l Hl Hd) in Habs. by apply abs_is_Num in Habs. }
  destruct (decide (line_total n l (squares s) = n)) as [E|E].
  - exists player_1. split; [done|]. apply (held_line_total n s l _ Hn HI Hl).
    unfold piece_value, PLAYER_ONE. lia.
  - exists player_2. split; [done|]. apply (held_line_total n s l _ Hn HI Hl).
    unfold piece_value, PLAYER_TWO. lia.
Qed.

(** While the game runs no line is complete. *)
Lemma running_total_lt n s l :
  1 <= n -> Inv n s -> gameOver s = false -> is_line n l ->
  Z.abs (line_total n l (squares s)) < n.
Proof.
  intros Hn HI Hrun Hl. destruct (accepted_flag_off n s HI Hrun) as [Hf _].
  pose proof (accepted_no_line n s HI Hrun l Hl) as Hno.
  destruct HI as [[_ _ Hp _ _ Hst Hdg _] _ _].
  pose proof (line_total_bound n Hn _ l Hp Hl) as Hb.
  assert (Hlook : lineSums s !! line_index n l = Some (Num (line_total n l (squares s)))).
  { destruct (is_diagonal l) eqn:Hd; [|by apply Hst].
    destruct (Hdg l Hd) as (d & Hlook & [->|(? & _)]); [done|congruence]. }
  specialize (Hno _ Hlook). lia.
Qed.

Lemma fresh_no_holder n s l p :
  1 <= n -> Inv n (resetGame s) -> is_line n l -> ~ all_held n l p (resetGame s).
Proof.
  intros Hn HI Hl Hh. apply (held_line_total n _ l p Hn HI Hl) in Hh.
  unfold line_total in Hh. rewrite total_zero in Hh.
  - destruct p; unfold piece_value, PLAYER_ONE, PLAYER_TWO in Hh; lia.
  - intros sq Hsq%resetGame_childNodes. unfold square_value, occupant.
    rewrite Hsq. by destruct (on_line n l sq).
Qed.

(** Whoever holds a whole line is the player who moved last. *)
Lemma reachable_holder n s :
  1 <= n -> reachable n s ->
  forall l p, is_line n l -> all_held n l p s -> piece_value p = currentPlayer s.
Proof.
  intros Hn Hr. induction Hr as [s [= <-]|s [e|] Hr IH]; intros l p Hl Hh.
  - exfalso. eapply fresh_no_holder; [done|by apply built_Inv|done|done].
  - pose proof (reachable_Inv n s Hn Hr) as HI.
    assert (HI' : Inv n (drop e s)) by (by apply drop_Inv).
    simpl in Hh |- *.
    destruct (target_element e s) as [object|] eqn:Ht;
      [|unfold drop in *; rewrite Ht in *; by apply (IH l p)].
    pose proof (drop_check e s object Ht) as Hd.
    destruct (attemptMove_check _ _ _) eqn:Hc.
    { rewrite Hd in Hh |- *. by apply (IH l p). }
    destruct Hd as (i & sq & -> & Hi & Hfree & Hd).
    apply accepted_check in Hc as (Hrun & Hpl & _).
    pose proof (held_line_flag n _ l p Hn HI' Hl Hh) as Hw.
    rewrite Hd in Hw, Hh |- *. rewrite endTurn_victoryFlag in Hw.
    destruct (accepted_frame s i sq (getData e)) as (_ & _ & _ & Fo & Fp & _).
    rewrite endTurn_currentPlayer by (by rewrite Fo).
    rewrite (endTurn_won _ Hw), Fp, <- Hpl.
    pose proof (accepted_Board n s i sq (getData e) Hn HI Hrun Hi Hfree Hpl) as HB.
    assert (Ht2 : line_total n l (squares (takeTurn i sq (getData e) s))
                  = n * piece_value p).
    { destruct HB as [_ _ Hp2 _ _ _ _ _]. apply (line_total_full n Hn _ l p Hp2 Hl).
      intros q Hq. apply Hh. unfold all_held. by rewrite endTurn_squares. }
    rewrite (accepted_line_total n s i sq (getData e) Hi Hfree l) in Ht2.
    pose proof (running_total_lt n s l Hn HI Hrun Hl) as Hlt.
    clear - Ht2 Hlt Hn.
    destruct p, (getData e), (at_line n l (data_x sq) (data_y sq));
      unfold piece_value, PLAYER_ONE, PLAYER_TWO in *; lia.
  - exfalso. eapply (fresh_no_holder n s); [done| |done|done].
    apply resetGame_preserves; [done|]. by apply reachable_Inv.
Qed.

(** X2. In every reachable state of an N x N game (N >= 1) a victory is
    flagged exactly when some line has every cell held by one player; and
    whoever holds a whole line is the player who made the last move, in a
    game that is over, so the two players never hold a line each. *)
Theorem X2_victory_is_a_held_line n s :
  1 <= n -> reachable n s ->
  (victoryFlag s = true <-> exists l p, is_line n l /\ all_held n l p s) /\
  (forall l p, is_line n l -> all_held n l p s ->
     piece_value p = currentPlayer s /\ gameOver s = true) /\
  (forall l1 p1 l2 p2, is_line n l1 -> all_held n l1 p1 s ->
     is_line n l2 -> all_held n l2 p2 s -> p1 = p2).
Proof.
  intros Hn Hr. pose proof (reachable_Inv n s Hn Hr) as HI.
  pose proof (reachable_holder n s Hn Hr) as Hh. split_and!.
  - split; [by apply flag_held_line|].
    intros (l & p & Hl & Hheld). by eapply held_line_flag.
  - intros l p Hl Hheld. split; [by apply (Hh l)|].
    destruct HI as [_ _ Hov]. rewrite Hov.
    by rewrite (held_line_flag n s l p Hn (reachable_Inv n s Hn Hr) Hl Hheld).
  - intros l1 p1 l2 p2 Hl1 H1 Hl2 H2.
    pose proof (Hh l1 p1 Hl1 H1) as E1. pose proof (Hh l2 p2 Hl2 H2) as E2.
    rewrite <- E2 in E1. by destruct p1, p2.
Qed.

(** ** Draws, turn order and the length of a game *)

Lemma total_add f g sqs :
  total (fun sq => f sq + g sq) sqs = total f sqs + total g sqs.
Proof. induction sqs as [|a sqs IH]; simpl; lia. Qed.

Lemma isOccupied_occupant i sq : isOccupied (Div i sq) = false <-> occupant sq = None.
Proof. rewrite isOccupied_Div. unfold occupant. by destruct (childNodes sq). Qed.

Lemma occupied_full n s :
  1 <= n -> Inv n s ->
  occupied_count (squares s) = n * n <->
  (forall sq, sq ∈ squares s -> occupant sq ≠ None).
Proof.
  intros Hn [[_ _ Hp _ _ _ _ _] _ _]. rewrite <- (places_size n Hn _ Hp).
  unfold occupied_count. split.
  - intros E sq Hsq Hnone. apply (isOccupied_occupant 0) in Hnone.
    assert (Hle : forall q, q ∈ squares s ->
                    (if isOccupied (Div 0 q) then 1 else 0) <= (fun _ : Square => 1) q).
    { intros q _. destruct (isOccupied (Div 0 q)); lia. }
    pose proof (total_tight _ (fun _ => 1) (squares s) Hle E sq Hsq) as H.
    cbv beta in H. rewrite Hnone in H. lia.
  - intros H. apply total_pointwise. intros sq Hsq.
    destruct (isOccupied (Div 0 sq)) eqn:E; [done|].
    apply isOccupied_occupant in E. by apply H in Hsq.
Qed.

(** X3. In every reachable state of an N x N game (N >= 1) the game is over
    without a victory exactly when every square of the board is occupied and
    no line has all its cells held by one player. *)
Theorem X3_draw_is_a_full_board n s :
  1 <= n -> reachable n s ->
  (gameOver s = true /\ victoryFlag s = false) <->
  ((forall sq, sq ∈ squares s -> occupant sq ≠ None) /\
   ~ exists l p, is_line n l /\ all_held n l p s).
Proof.
  intros Hn Hr. pose proof (reachable_Inv n s Hn Hr) as HI.
  rewrite <- (occupied_full n s Hn HI).
  pose proof HI as [[_ _ Hp _ _ _ _ _] Ht Hov].
  pose proof (occupied_count_le n Hn _ Hp) as Hle. rewrite <- Ht in *.
  split.
  - intros [Hgo Hw]. rewrite Hw in Hov. simpl in Hov. rewrite Hgo in Hov.
    symmetry in Hov. apply Z.leb_le in Hov. split; [lia|].
    intros (l & p & Hl & Hh). pose proof (held_line_flag n s l p Hn HI Hl Hh). congruence.
  - intros [Hfull Hno]. destruct (victoryFlag s) eqn:Hw.
    + exfalso. apply Hno. by apply flag_held_line.
    + split; [|done]. rewrite Hov. simpl. apply Z.leb_le. lia.
Qed.

Lemma pieces_sum sqs :
  pieces_of player_1 sqs + pieces_of player_2 sqs = occupied_count sqs.
Proof.
  unfold pieces_of, occupied_count. rewrite <- total_add. apply total_pointwise.
  intros sq _. unfold holds, isOccupied, occupant. simpl.
  by destruct (childNodes sq) as [|[] ?].
Qed.

Lemma pieces_diff sqs :
  pieces_of player_1 sqs - pieces_of player_2 sqs = total square_value sqs.
Proof.
  unfold pieces_of. rewrite <- total_sub. apply total_pointwise.
  intros sq _. by rewrite square_value_holds.
Qed.

(** Player one's lead in pieces: none when it is her turn, one when it is
    player two's; and the other way round once the game is over, when the
    current player is the one who moved last. *)
Lemma reachable_balance n s :
  1 <= n -> reachable n s ->
  total square_value (squares s)
  = if gameOver s then (if currentPlayer s =? PLAYER_ONE then 1 else 0)
    else (if currentPlayer s =? PLAYER_ONE then 0 else 1).
Proof.
  intros Hn Hr.
  assert (Hfresh : forall s0, total square_value (squares (resetGame s0)) = 0).
  { intros s0. apply total_zero. intros sq Hsq%resetGame_childNodes.
    unfold square_value, occupant. by rewrite Hsq. }
  induction Hr as [s [= <-]|s [e|] Hr IH].
  - by rewrite Hfresh.
  - pose proof (reachable_Inv n s Hn Hr) as HI. simpl.
    destruct (target_element e s) as [object|] eqn:Ht;
      [|unfold drop; by rewrite Ht].
    pose proof (drop_check e s object Ht) as Hd.
    destruct (attemptMove_check _ _ _) eqn:Hc; [by rewrite Hd|].
    destruct Hd as (i & sq & -> & Hi & Hfree & ->).
    apply accepted_check in Hc as (Hrun & Hpl & _).
    destruct (accepted_frame s i sq (getData e)) as (_ & _ & _ & Fo & Fp & _).
    rewrite endTurn_currentPlayer by (by rewrite Fo).
    rewrite endTurn_squares, accepted_squares, (total_insert _ _ _ sq _ Hi), IH, Hrun, Fp.
    unfold square_value at 1 2, occupant. simpl. rewrite Hfree. simpl.
    rewrite <- Hpl. clear.
    destruct (gameOver _), (getData e); reflexivity.
  - cbn [act]. by rewrite Hfresh.
Qed.

(** X4. In every reachable state of an N x N game (N >= 1) the pieces on the
    board are as many as the turn count, and player one has as many as
    player two or one more. While the game runs player one is to move
    exactly when the two have equally many, that is on even turn counts;
    once the game is over the current player is the one who moved last. *)
Theorem X4_turn_order n s :
  1 <= n -> reachable n s ->
  pieces_of player_1 (squares s) + pieces_of player_2 (squares s) = turnCount s /\
  (pieces_of player_1 (squares s) = pieces_of player_2 (squares s) \/
   pieces_of player_1 (squares s) = pieces_of player_2 (squares s) + 1) /\
  (gameOver s = false ->
     (currentPlayer s = PLAYER_ONE <->
      pieces_of player_1 (squares s) = pieces_of player_2 (squares s)) /\
     currentPlayer s = if Z.even (turnCount s) then PLAYER_ONE else PLAYER_TWO) /\
  (gameOver s = true ->
     (currentPlayer s = PLAYER_ONE <->
      pieces_of player_1 (squares s) = pieces_of player_2 (squares s) + 1) /\
     currentPlayer s = if Z.even (turnCount s) then PLAYER_TWO else PLAYER_ONE).
Proof.
  intros Hn Hr. destruct (reachable_Inv n s Hn Hr) as [[_ _ _ _ Hpl _ _ _] Ht _].
  pose proof (reachable_balance n s Hn Hr) as Hb.
  rewrite <- pieces_diff in Hb. pose proof (pieces_sum (squares s)) as Hs.
  rewrite <- Ht in Hs.
  set (a := pieces_of player_1 (squares s)) in *.
  set (b := pieces_of player_2 (squares s)) in *.
  unfold PLAYER_ONE, PLAYER_TWO in *.
  assert (Hev : Z.even (turnCount s) = Z.even (a - b)).
  { replace (turnCount s) with ((a - b) + 2 * b) by lia. apply Z.even_add_mul_2. }
  rewrite Hev. clear Hev. split; [done|].
  assert (Hab : a - b = 0 \/ a - b = 1).
  { destruct (gameOver s), Hpl as [E|E]; rewrite E in Hb; simpl in Hb; lia. }
  split; [lia|].
  destruct (gameOver s), Hpl as [E|E]; rewrite E in Hb |- *; simpl in Hb;
    rewrite Hb; simpl; (split; intros ?; [|done]) || (split; intros ?; [done|]);
    (split; [split; intros; lia|reflexivity]).
Qed.

(** X5. In an N x N game (N >= 1) no victory is flagged before turn 2N-1,
    and none for player two before turn 2N: the winner has at least N pieces
    on the board and the players have moved in turn. *)
Theorem X5_no_early_win n s :
  1 <= n -> reachable n s -> victoryFlag s = true ->
  2 * n - 1 <= turnCount s /\
  (currentPlayer s = PLAYER_TWO -> 2 * n <= turnCount s).
Proof.
  intros Hn Hr Hw. pose proof (reachable_Inv n s Hn Hr) as HI.
  destruct (flag_held_line n s Hn HI Hw) as (l & p & Hl & Hh).
  pose proof (reachable_holder n s Hn Hr l p Hl Hh) as Hp.
  pose proof (reachable_balance n s Hn Hr) as Hb.
  pose proof HI as [[_ _ Hpl _ _ _ _ _] Ht Hov].
  rewrite Hw in Hov. simpl in Hov. rewrite Hov in Hb.
  rewrite <- pieces_diff in Hb. pose proof (pieces_sum (squares s)) as Hs.
  rewrite <- Ht in Hs.
  assert (Hline : n <= pieces_of p (squares s)).
  { rewrite <- (places_line_count n Hn _ l Hpl Hl). unfold line_count, pieces_of.
    apply total_le. intros sq Hsq. destruct (on_line n l sq) eqn:Hon.
    - apply (Hh sq Hsq), holds_occupant in Hon. by rewrite Hon.
    - destruct (holds p sq); lia. }
  rewrite <- Hp in *. clear - Hb Hs Hline.
  destruct p; unfold piece_value, PLAYER_ONE, PLAYER_TWO in *; simpl in Hb; lia.
Qed.

(** ** The layout of the board *)

Lemma flat_map_rows_lookup {A} (g : Z -> list A) (m : nat) :
  (forall y, length (g y) = m) ->
  forall (j k : nat) (a : Z) (i : nat),
    (j < k)%nat -> (i < m)%nat ->
    flat_map g (seqZ a (Z.of_nat k)) !! (j * m + i)%nat = g (a + Z.of_nat j) !! i.
Proof.
  intros Hm. induction j as [|j IH]; intros k a i Hj Hi.
  - rewrite seqZ_cons by lia. simpl. rewrite lookup_app_l by (rewrite Hm; lia).
    by rewrite Z.add_0_r.
  - rewrite seqZ_cons by lia. cbn [flat_map].
    rewrite lookup_app_r by (rewrite Hm; lia). rewrite Hm.
    replace (S j * m + i - m)%nat with (j * m + i)%nat by lia.
    replace (Z.pred (Z.of_nat k)) with (Z.of_nat (k - 1)) by lia.
    rewrite IH by lia.
    by replace (Z.succ a + Z.of_nat j) with (a + Z.of_nat (S j)) by lia.
Qed.

Lemma row_lookup n y (i : nat) :
  Z.of_nat i < n ->
  map (fun x => getNewBoardSquare x y) (seqZ 0 n) !! i
  = Some (getNewBoardSquare (Z.of_nat i) y).
Proof.
  intros Hi. change (map ?f ?l) with (f <$> l).
  by rewrite list_lookup_fmap, lookup_seqZ_lt.
Qed.

Lemma row_length n y :
  length (map (fun x => getNewBoardSquare x y) (seqZ 0 n)) = Z.to_nat n.
Proof. by rewrite length_map, length_seqZ. Qed.

Lemma createGameBoard_length n :
  length (createGameBoard n) = (Z.to_nat n * Z.to_nat n)%nat.
Proof.
  unfold createGameBoard.
  rewrite (flat_map_constant_length (c := Z.to_nat n)), length_seqZ; [done|].
  intros y _. apply row_length.
Qed.

Lemma createGameBoard_lookup n (j i : nat) :
  Z.of_nat j < n -> Z.of_nat i < n ->
  createGameBoard n !! (j * Z.to_nat n + i)%nat
  = Some (getNewBoardSquare (Z.of_nat i) (Z.of_nat j)).
Proof.
  intros Hj Hi. unfold createGameBoard.
  rewrite <- (Z2Nat.id n) at 2 by lia.
  rewrite (flat_map_rows_lookup _ (Z.to_nat n) (fun y => row_length n y))
    by lia.
  rewrite row_lookup by done. by rewrite Z.add_0_l.
Qed.

Lemma cell_index n x y :
  0 <= x < n -> 0 <= y < n ->
  cell n x y = (Z.to_nat y * Z.to_nat n + Z.to_nat x)%nat.
Proof. intros Hx Hy. unfold cell. nia. Qed.

(** X6. The board built for grid size n has [n * n] squares in document
    order, row by row: for every cell (x, y) of the grid the square at
    position y * n + x is the empty square with attributes (x, y), and every
    square of the board is such a square, at the position of its attributes;
    so each cell of the grid has exactly one square. *)
Theorem X6_board_layout n :
  length (createGameBoard n) = (Z.to_nat n * Z.to_nat n)%nat /\
  (forall x y, 0 <= x < n -> 0 <= y < n ->
     createGameBoard n !! cell n x y = Some (getNewBoardSquare x y)) /\
  (forall i sq, createGameBoard n !! i = Some sq ->
     0 <= data_x sq < n /\ 0 <= data_y sq < n /\
     i = cell n (data_x sq) (data_y sq) /\
     sq = getNewBoardSquare (data_x sq) (data_y sq)).
Proof.
  split_and!.
  - apply createGameBoard_length.
  - intros x y Hx Hy. rewrite cell_index by done.
    rewrite createGameBoard_lookup by lia. by rewrite !Z2Nat.id by lia.
  - intros i sq Hi.
    assert (Hlt : (i < Z.to_nat n * Z.to_nat n)%nat).
    { rewrite <- createGameBoard_length. apply lookup_lt_is_Some. eauto. }
    assert (Hpos : (0 < Z.to_nat n)%nat) by lia.
    pose proof (Nat.div_mod_eq i (Z.to_nat n)) as Hdm.
    pose proof (Nat.mod_upper_bound i (Z.to_nat n) ltac:(lia)) as Hr.
    pose proof (Nat.Div0.div_lt_upper_bound i (Z.to_nat n) (Z.to_nat n) Hlt) as Hq.
    set (j := (i `div` Z.to_nat n)%nat) in *. set (r := (i `mod` Z.to_nat n)%nat) in *.
    assert (E : createGameBoard n !! i
                = Some (getNewBoardSquare (Z.of_nat r) (Z.of_nat j))).
    { rewrite Hdm, (Nat.mul_comm (Z.to_nat n) j). apply createGameBoard_lookup; lia. }
    rewrite Hi in E. injection E as ->. simpl. split_and!; try lia; [|done].
    rewrite cell_index by lia. rewrite !Nat2Z.id. lia.
Qed.

(** X7. In every reachable state of an N x N game (N >= 1) the board still
    has its N * N squares in their places: for every cell (x, y) of the grid
    the square at position y * N + x carries the attributes (x, y); and
    every square is either empty with class "square", or holds exactly one
    piece, whose id has been appended to the class. *)
Theorem X7_board_in_place n s :
  1 <= n -> reachable n s ->
  length (squares s) = (Z.to_nat n * Z.to_nat n)%nat /\
  (forall x y, 0 <= x < n -> 0 <= y < n ->
     exists sq, squares s !! cell n x y = Some sq /\ data_x sq = x /\ data_y sq = y) /\
  (forall sq, sq ∈ squares s -> cell_ok sq).
Proof.
  intros Hn Hr. destruct (reachable_Inv n s Hn Hr) as [[_ _ Hp Hc _ _ _ _] _ _].
  split_and!.
  - rewrite (Forall2_length _ _ _ Hp). apply createGameBoard_length.
  - intros x y Hx Hy.
    assert (E : createGameBoard n !! cell n x y = Some (getNewBoardSquare x y)).
    { rewrite cell_index by done. rewrite createGameBoard_lookup by lia.
      by rewrite !Z2Nat.id by lia. }
    destruct (Forall2_lookup_r _ _ _ _ _ Hp E) as (sq & Hsq & Hx' & Hy').
    by exists sq.
  - by apply Forall_forall.
Qed.

(** ** What a drop does to the board *)

Lemma endTurn_message_running s :
  gameOver (endTurn s) = false ->
  message (endTurn s) = getPlayerName (currentPlayer (endTurn s)) +:+ "'s turn".
Proof.
  unfold endTurn. destruct (victoryFlag s); [done|].
  by destruct (NUMBER_OF_SQUARES s <=? turnCount s + 1).
Qed.

(** X8. An accepted drop of a piece on the i-th square changes that square
    and no other: the square keeps its attributes, holds the dropped piece
    alone and has the piece's id appended to its class. The turn count grows
    by one; if the move ends the game the current player stays the one who
    moved, otherwise the turn passes to the other player and the status
    announces that player's turn. *)
Theorem X8_accepted_move e s i sq :
  let s' := drop e s in
  target_element e s = Some (Div i sq) ->
  attemptMove_check (piece_value (getData e)) (isOccupied (Div i sq)) s = Accepted ->
  squares s'
  = <[i := mkSquare (data_x sq) (data_y sq)
                    (className sq +:+ " " +:+ id_text (getData e)) [getData e]]>
      (squares s) /\
  (forall j, j ≠ i -> squares s' !! j = squares s !! j) /\
  turnCount s' = turnCount s + 1 /\
  (gameOver s' = true -> currentPlayer s' = currentPlayer s) /\
  (gameOver s' = false ->
     currentPlayer s' = - currentPlayer s /\
     message s' = getPlayerName (currentPlayer s') +:+ "'s turn").
Proof.
  intros s' Ht Hc. pose proof (drop_check e s _ Ht) as Hd. rewrite Hc in Hd.
  destruct Hd as (i' & sq' & [= <- <-] & Hi & Hfree & Hd).
  apply accepted_check in Hc as (Hrun & Hpl & _).
  destruct (accepted_frame s i sq (getData e)) as (_ & _ & _ & Fo & Fp & Ft).
  assert (Hsq : squares s'
    = <[i := mkSquare (data_x sq) (data_y sq)
                      (className sq +:+ " " +:+ id_text (getData e)) [getData e]]>
        (squares s)).
  { unfold s'. rewrite Hd, endTurn_squares, accepted_squares. by rewrite Hfree. }
  pose proof (endTurn_currentPlayer (takeTurn i sq (getData e) s)
                ltac:(by rewrite Fo)) as Hcp.
  rewrite Fp in Hcp. unfold s'. rewrite Hd. split_and!.
  - by rewrite <- Hd.
  - intros j Hj. rewrite <- Hd. fold s'. rewrite Hsq. by apply list_lookup_insert_ne.
  - by rewrite endTurn_turnCount, Ft.
  - intros Hgo. by rewrite Hcp, Hgo.
  - intros Hgo. split; [|by apply endTurn_message_running].
    rewrite Hcp, Hgo, <- Hpl. by destruct (getData e).
Qed.

(** X9. A drop never moves, replaces or removes a piece: whatever the state
    and the event, every occupied square is the same after the drop, and the
    board keeps its length; and a drop aimed at a piece image changes
    neither the board, nor the line sums, nor the turn count, nor the
    player to move. *)
Theorem X9_pieces_stay e s :
  (forall i sq, squares s !! i = Some sq -> childNodes sq ≠ [] ->
                squares (drop e s) !! i = Some sq) /\
  length (squares (drop e s)) = length (squares s) /\
  (target e = OnPiece ->
     squares (drop e s) = squares s /\ lineSums (drop e s) = lineSums s /\
     turnCount (drop e s) = turnCount s /\ currentPlayer (drop e s) = currentPlayer s).
Proof.
  destruct (target_element e s) as [object|] eqn:Ht.
  2:{ unfold drop. rewrite Ht. split_and!; [done|done|].
      intros Hp. unfold target_element in Ht. by rewrite Hp in Ht. }
  pose proof (drop_check e s object Ht) as Hd.
  destruct (attemptMove_check _ _ _) eqn:Hc; [by rewrite Hd|].
  destruct Hd as (i' & sq' & -> & Hi' & Hfree & Hd).
  rewrite Hd, endTurn_squares, accepted_squares. split_and!.
  - intros i sq Hi Hocc. destruct (decide (i' = i)) as [->|Hne].
    + rewrite Hi in Hi'. injection Hi' as ->. done.
    + by rewrite list_lookup_insert_ne.
  - apply length_insert.
  - intros Hp. unfold target_element in Ht. by rewrite Hp in Ht.
Qed.

Lemma drop_over e s :
  gameOver s = true ->
  drop e s = s \/ drop e s = set_message "The game is already over!" s.
Proof.
  intros Hgo. unfold drop. destruct (target_element e s); [|by left].
  rewrite Hgo. by right.
Qed.

(** X10. Once the game is over it stays over under drops: after any series
    of drops the board, the line sums, the turn count, the current player
    and both flags are what they were, and the status is either unchanged
    or says that the game is already over. *)
Theorem X10_over_is_final s events :
  gameOver s = true ->
  squares (drops s events) = squares s /\
  lineSums (drops s events) = lineSums s /\
  turnCount (drops s events) = turnCount s /\
  currentPlayer (drops s events) = currentPlayer s /\
  victoryFlag (drops s events) = victoryFlag s /\
  gameOver (drops s events) = true /\
  (message (drops s events) = message s \/
   message (drops s events) = "The game is already over!").
Proof.
  revert s. induction events as [|e events IH]; intros s Hgo.
  - split_and!; auto.
  - unfold drops in *. cbn [foldl].
    destruct (drop_over e s Hgo) as [-> | ->]; [by apply IH|].
    destruct (IH (set_message "The game is already over!" s) Hgo)
      as (? & ? & ? & ? & ? & ? & Hm).
    split_and!; try done. destruct Hm as [-> | ->]; by right.
Qed.

(** ** [resetGame] on any state *)

(** X11. Whatever the state, [resetGame] keeps the grid size and the squares
    of the board in their places and empties each of them, however many
    children it has; the class of a square is set back to "square" only if
    the square had a child, and is otherwise left as it was. *)
Theorem X11_reset_clears s :
  GRID_SIZE (resetGame s) = GRID_SIZE s /\
  NUMBER_OF_SQUARES (resetGame s) = NUMBER_OF_SQUARES s /\
  squares (resetGame s) = map cleared (squares s) /\
  length (squares (resetGame s)) = length (squares s) /\
  (forall sq, sq ∈ squares (resetGame s) -> childNodes sq = []).
Proof.
  split_and!; [done|done| | |].
  - simpl. apply map_ext. intros sq. by apply clearSquare_spec.
  - simpl. apply length_map.
  - intros sq. apply resetGame_childNodes.
Qed.

(** ** Entries the table does not hold *)

Lemma add_at_NaN i p (ls : gmap Z num) j :
  ls !! j = Some NaN -> add_at i p ls !! j = Some NaN.
Proof.
  intros H. destruct (decide (i = j)) as [->|Hne].
  - by rewrite add_at_eq, H.
  - by rewrite add_at_ne.
Qed.

Lemma add_at_missing i p (ls : gmap Z num) :
  ls !! i = None \/ ls !! i = Some NaN -> add_at i p ls !! i = Some NaN.
Proof. intros [H|H]; by rewrite add_at_eq, H. Qed.

Lemma updateVictoryConditions_NaN x y p s j :
  add_at (GRID_SIZE s + y) p (add_at x p (lineSums s)) !! j = Some NaN ->
  lineSums (updateVictoryConditions x y p s) !! j = Some NaN.
Proof.
  unfold updateVictoryConditions. cbv zeta.
  generalize (add_at (GRID_SIZE s + y) p (add_at x p (lineSums s))). intros ls2 H.
  destruct (negb _ && (x =? y)); destruct (negb _ && (_ =? y));
    cbn [lineSums set_victory]; repeat apply add_at_NaN; done.
Qed.

(** X12. Reading an entry the table lacks yields [undefined], and the sum
    written back is [NaN]: after [updateVictoryConditions x y p] the entry
    at x, and the entry at N + y, is [NaN] if it was missing or [NaN]
    before; an entry that is [NaN] stays [NaN]; and an update whose column
    and row entries both come out [NaN], for coordinates off both diagonal
    tests, leaves the victory flag false. *)
Theorem X12_missing_entries x y p s :
  let n := GRID_SIZE s in
  let s' := updateVictoryConditions x y p s in
  (forall j, lineSums s !! j = Some NaN -> lineSums s' !! j = Some NaN) /\
  (lineSums s !! x = None \/ lineSums s !! x = Some NaN ->
   lineSums s' !! x = Some NaN) /\
  (lineSums s !! (n + y) = None \/ lineSums s !! (n + y) = Some NaN ->
   lineSums s' !! (n + y) = Some NaN) /\
  (lineSums s' !! x = Some NaN -> lineSums s' !! (n + y) = Some NaN ->
   x ≠ y -> Z.abs (x - (n - 1)) ≠ y -> victoryFlag s' = false).
Proof.
  intros n s'. split_and!.
  - intros j Hj. apply updateVictoryConditions_NaN. by do 2 apply add_at_NaN.
  - intros Hx. apply updateVictoryConditions_NaN. by apply add_at_NaN, add_at_missing.
  - intros Hy. apply updateVictoryConditions_NaN. apply add_at_missing. fold n.
    destruct (decide (x = n + y)) as [->|Hne].
    + right. by apply add_at_missing.
    + by rewrite add_at_ne.
  - unfold s', updateVictoryConditions. cbv zeta. fold n.
    intros Hx Hy Hxy Had. apply Z.eqb_neq in Hxy, Had.
    rewrite Hxy, Had, !andb_false_r in Hx, Hy |- *.
    cbn [lineSums set_victory victoryFlag] in Hx, Hy |- *. by rewrite Hx, Hy.
Qed.

(** ** The status line *)

Lemma endTurn_status s : gameOver s = false -> status_fits (endTurn s).
Proof.
  intros Hrun. unfold status_fits, endTurn. destruct (victoryFlag s) eqn:Hw.
  - cbn. by left.
  - destruct (NUMBER_OF_SQUARES s <=? turnCount s + 1).
    + cbn. right; left. done.
    + cbn. rewrite Hrun. right; left. done.
Qed.

(** X13. In every reachable state the status text fits the state: it names
    a winner only in a game that is over with the victory flag set, and then
    the current player; it announces a tie only in a game that is over
    without the flag; and while the game runs it names no player but the
    one to move. *)
Theorem X13_status_fits n s : reachable n s -> status_fits s.
Proof.
  induction 1 as [s [= <-]|s [e|] Hr IH].
  - unfold status_fits. cbn. by left.
  - simpl. destruct (target_element e s) as [object|] eqn:Ht;
      [|unfold drop; by rewrite Ht].
    pose proof (drop_check e s object Ht) as Hd.
    unfold attemptMove_check in Hd. destruct (gameOver s) eqn:Hrun.
    { rewrite Hd. unfold status_fits. cbn. rewrite Hrun. by right; right. }
    destruct (negb (piece_value (getData e) =? currentPlayer s)).
    { rewrite Hd. unfold status_fits. cbn. rewrite Hrun. by right; right; left. }
    destruct (isOccupied object).
    { rewrite Hd. unfold status_fits. cbn. rewrite Hrun. by right; right; right. }
    destruct Hd as (i & sq & _ & _ & _ & ->). apply endTurn_status.
    by destruct (accepted_frame s i sq (getData e)) as (_ & _ & _ & -> & _).
  - unfold status_fits. cbn. by left.
Qed.

(** ** Legal moves *)

(** X14. A legal move is always carried out, on the cell it names: in a
    reachable running state of an N x N game (N >= 1), a piece of the player
    to move dropped on the square at position y * N + x of an empty cell
    (x, y) of the grid leaves that square, with attributes (x, y), holding
    the piece alone; the turn count grows by one; and the entries of column
    x and of row y each grow by the piece's value. *)
Theorem X14_legal_move n s p x y :
  let s' := act s (place n p x y) in
  1 <= n -> reachable n s ->
  gameOver s = false -> piece_value p = currentPlayer s ->
  0 <= x < n -> 0 <= y < n ->
  (forall sq, squares s !! cell n x y = Some sq -> occupant sq = None) ->
  (exists sq', squares s' !! cell n x y = Some sq' /\
               data_x sq' = x /\ data_y sq' = y /\ childNodes sq' = [p]) /\
  turnCount s' = turnCount s + 1 /\
  (exists a b,
     lineSums s !! x = Some (Num a) /\
     lineSums s' !! x = Some (Num (a + piece_value p)) /\
     lineSums s !! (n + y) = Some (Num b) /\
     lineSums s' !! (n + y) = Some (Num (b + piece_value p))).
Proof.
  intros s' Hn Hr Hrun Hpl Hx Hy Hfree.
  pose proof (reachable_Inv n s Hn Hr) as HI.
  pose proof HI as [[Hg _ Hp _ _ Hst _ _] _ _].
  assert (E : createGameBoard n !! cell n x y = Some (getNewBoardSquare x y)).
  { rewrite cell_index by done. rewrite createGameBoard_lookup by lia.
    by rewrite !Z2Nat.id by lia. }
  destruct (Forall2_lookup_r _ _ _ _ _ Hp E) as (sq & Hsq & Hx' & Hy').
  simpl in Hx', Hy'.
  assert (Hempty : childNodes sq = []).
  { specialize (Hfree sq Hsq). unfold occupant in Hfree. by destruct (childNodes sq). }
  assert (Ht : target_element (mkEvent p (OnSquare (cell n x y))) s
               = Some (Div (cell n x y) sq)).
  { unfold target_element. simpl. by rewrite Hsq. }
  destruct (drop_legal _ s _ Ht Hrun Hpl ltac:(by apply isOccupied_Div))
    as (i & q & [= <- <-] & _ & _ & Hd).
  unfold s', place. cbn [act]. rewrite Hd. cbn [getData].
  destruct (accepted_frame s (cell n x y) sq p) as (_ & _ & _ & _ & _ & Ft).
  pose proof (accepted_update n s (cell n x y) sq p HI Hrun Hsq)
    as (c' & d' & Ha & Hb & _).
  cbn [GRID_SIZE set_squares] in Ha, Hb. rewrite Hx' in Ha. rewrite Hg, Hy' in Hb.
  split_and!.
  - rewrite endTurn_squares, accepted_squares. eexists. split.
    + apply list_lookup_insert_eq. by eapply lookup_lt_Some.
    + simpl. by rewrite Hempty.
  - by rewrite endTurn_turnCount, Ft.
  - exists (line_total n (Column x) (squares s)), (line_total n (Row y) (squares s)).
    rewrite endTurn_lineSums. split_and!; try done.
    + by apply (Hst (Column x)).
    + by apply (Hst (Row y)).
Qed.

(** ** From the control panel to the board *)

(** X15. The control panel and the drop handler agree: the two images that
    can be dragged carry the ids "player-1" and "player-2", in this order,
    whatever the image directory; the player that a drop reads off the id
    of a dragged image is the one named in the caption under that image;
    and any other text would be read as player two. *)
Theorem X15_controls_match_players IMAGE_DIR :
  map drag (createGameControls IMAGE_DIR) = map id_text [player_1; player_2] /\
  (forall f, f ∈ createGameControls IMAGE_DIR ->
     getPlayerName (player_of_text (drag f)) = figcaption f) /\
  (forall p, player_of_text (id_text p) = piece_value p) /\
  (forall text, text ≠ "player-1" -> player_of_text text = PLAYER_TWO).
Proof.
  split_and!.
  - reflexivity.
  - intros f Hf. change (createGameControls IMAGE_DIR) with
      [ mkFigure "player-1" (IMAGE_DIR +:+ "/player-1.png") "Player 1" PLAYER_ONE_NAME;
        mkFigure "player-2" (IMAGE_DIR +:+ "/player-2.png") "Player 2" PLAYER_TWO_NAME ]
      in Hf.
    apply elem_of_cons in Hf as [->|Hf]; [done|].
    apply elem_of_cons in Hf as [->|Hf]; [done|]. by apply elem_of_nil in Hf.
  - by intros [].
  - intros text Hne. unfold player_of_text.
    destruct (String.eqb_spec text "player-1"); [done|reflexivity].
Qed.

(** ** The further properties on the sample games *)

(** Row 2 after the game [row_and_diagonal]. *)
Lemma X1_sums_count_pieces_witness :
  (1 <= 3 /\ reachable 3 (run 3 row_and_diagonal) /\ is_line 3 (Row 2)) /\
  exists v, lineSums (run 3 row_and_diagonal) !! line_index 3 (Row 2) = Some (Num v) /\
    (is_diagonal (Row 2) = false \/ victoryFlag (run 3 row_and_diagonal) = false ->
     v = pieces_on 3 (Row 2) player_1 (squares (run 3 row_and_diagonal))
         - pieces_on 3 (Row 2) player_2 (squares (run 3 row_and_diagonal))) /\
    (v = pieces_on 3 (Row 2) player_1 (squares (run 3 row_and_diagonal))
         - pieces_on 3 (Row 2) player_2 (squares (run 3 row_and_diagonal)) \/
     (is_diagonal (Row 2) = true /\ victoryFlag (run 3 row_and_diagonal) = true /\
      v + currentPlayer (run 3 row_and_diagonal)
      = pieces_on 3 (Row 2) player_1 (squares (run 3 row_and_diagonal))
        - pieces_on 3 (Row 2) player_2 (squares (run 3 row_and_diagonal)))).
Proof.
  assert (H1 : 1 <= 3) by lia.
  pose proof (reachable_run 3 row_and_diagonal) as H2.
  assert (H3 : is_line 3 (Row 2)) by (simpl; lia).
  split; [by split_and!|].
  exact (X1_sums_count_pieces 3 (run 3 row_and_diagonal) (Row 2) H1 H2 H3).
Defined.

(** The game [row_win], won by player one on row 0. *)
Lemma X2_victory_is_a_held_line_witness :
  (1 <= 3 /\ reachable 3 (run 3 row_win)) /\
  (victoryFlag (run 3 row_win) = true <->
   exists l p, is_line 3 l /\ all_held 3 l p (run 3 row_win)) /\
  (forall l p, is_line 3 l -> all_held 3 l p (run 3 row_win) ->
     piece_value p = currentPlayer (run 3 row_win) /\ gameOver (run 3 row_win) = true) /\
  (forall l1 p1 l2 p2, is_line 3 l1 -> all_held 3 l1 p1 (run 3 row_win) ->
     is_line 3 l2 -> all_held 3 l2 p2 (run 3 row_win) -> p1 = p2).
Proof.
  assert (H1 : 1 <= 3) by lia.
  pose proof (reachable_run 3 row_win) as H2.
  split; [by split|]. exact (X2_victory_is_a_held_line 3 (run 3 row_win) H1 H2).
Defined.

(** The game [drawn_game], which fills the board without a line. *)
Lemma X3_draw_is_a_full_board_witness :
  (1 <= 3 /\ reachable 3 (run 3 drawn_game)) /\
  ((gameOver (run 3 drawn_game) = true /\ victoryFlag (run 3 drawn_game) = false) <->
   ((forall sq, sq ∈ squares (run 3 drawn_game) -> occupant sq ≠ None) /\
    ~ exists l p, is_line 3 l /\ all_held 3 l p (run 3 drawn_game))).
Proof.
  assert (H1 : 1 <= 3) by lia.
  pose proof (reachable_run 3 drawn_game) as H2.
  split; [by split|]. exact (X3_draw_is_a_full_board 3 (run 3 drawn_game) H1 H2).
Defined.

(** Two moves into a game. *)
Lemma X4_turn_order_witness :
  (1 <= 3 /\ reachable 3 (run 3 opening)) /\
  pieces_of player_1 (squares (run 3 opening))
  + pieces_of player_2 (squares (run 3 opening)) = turnCount (run 3 opening) /\
  (pieces_of player_1 (squares (run 3 opening))
   = pieces_of player_2 (squares (run 3 opening)) \/
   pieces_of player_1 (squares (run 3 opening))
   = pieces_of player_2 (squares (run 3 opening)) + 1) /\
  currentPlayer (run 3 opening) = PLAYER_ONE.
Proof.
  assert (H1 : 1 <= 3) by lia.
  pose proof (reachable_run 3 opening) as H2.
  destruct (X4_turn_order 3 (run 3 opening) H1 H2) as (Hs & Hd & Hrun & _).
  split; [by split|]. split_and!; [exact Hs|exact Hd|].
  assert (Hgo : gameOver (run 3 opening) = false) by (vm_compute; reflexivity).
  destruct (Hrun Hgo) as [_ Hcp]. rewrite Hcp. vm_compute. reflexivity.
Defined.

(** The game [row_win] is won at turn 5 = 2 * 3 - 1. *)
Lemma X5_no_early_win_witness :
  (1 <= 3 /\ reachable 3 (run 3 row_win) /\ victoryFlag (run 3 row_win) = true) /\
  2 * 3 - 1 <= turnCount (run 3 row_win) /\
  (currentPlayer (run 3 row_win) = PLAYER_TWO -> 2 * 3 <= turnCount (run 3 row_win)).
Proof.
  assert (H1 : 1 <= 3) by lia.
  pose proof (reachable_run 3 row_win) as H2.
  assert (H3 : victoryFlag (run 3 row_win) = true) by (vm_compute; reflexivity).
  split; [by split_and!|]. exact (X5_no_early_win 3 (run 3 row_win) H1 H2 H3).
Defined.

(** The board two moves into a game. *)
Lemma X7_board_in_place_witness :
  (1 <= 3 /\ reachable 3 (run 3 opening)) /\
  length (squares (run 3 opening)) = (Z.to_nat 3 * Z.to_nat 3)%nat /\
  (forall x y, 0 <= x < 3 -> 0 <= y < 3 ->
     exists sq, squares (run 3 opening) !! cell 3 x y = Some sq /\
                data_x sq = x /\ data_y sq = y) /\
  (forall sq, sq ∈ squares (run 3 opening) -> cell_ok sq).
Proof.
  assert (H1 : 1 <= 3) by lia.
  pose proof (reachable_run 3 opening) as H2.
  split; [by split|]. exact (X7_board_in_place 3 (run 3 opening) H1 H2).
Defined.

(** Player one takes the centre as the third move. *)
Lemma X8_accepted_move_witness :
  (target_element (mkEvent player_1 (OnSquare 4)) (run 3 opening)
   = Some (Div 4 (mkSquare 1 1 "square" [])) /\
   attemptMove_check (piece_value player_1)
     (isOccupied (Div 4 (mkSquare 1 1 "square" []))) (run 3 opening) = Accepted) /\
  squares (drop (mkEvent player_1 (OnSquare 4)) (run 3 opening))
  = <[4%nat := mkSquare 1 1 "square player-1" [player_1]]> (squares (run 3 opening)) /\
  turnCount (drop (mkEvent player_1 (OnSquare 4)) (run 3 opening))
  = turnCount (run 3 opening) + 1.
Proof.
  assert (Ht : target_element (mkEvent player_1 (OnSquare 4)) (run 3 opening)
               = Some (Div 4 (mkSquare 1 1 "square" []))) by (vm_compute; reflexivity).
  assert (Hc : attemptMove_check (piece_value player_1)
                 (isOccupied (Div 4 (mkSquare 1 1 "square" []))) (run 3 opening)
               = Accepted) by (vm_compute; reflexivity).
  destruct (X8_accepted_move (mkEvent player_1 (OnSquare 4)) (run 3 opening) 4
              (mkSquare 1 1 "square" []) Ht Hc) as (Hs & _ & Hn & _).
  split; [by split|]. split; [exact Hs|exact Hn].
Defined.

(** Two drops after the game [row_win] has ended. *)
Lemma X10_over_is_final_witness :
  gameOver (run 3 row_win) = true /\
  squares (drops (run 3 row_win)
             [mkEvent player_2 (OnSquare 8); mkEvent player_1 (OnSquare 0)])
  = squares (run 3 row_win) /\
  lineSums (drops (run 3 row_win)
              [mkEvent player_2 (OnSquare 8); mkEvent player_1 (OnSquare 0)])
  = lineSums (run 3 row_win) /\
  turnCount (drops (run 3 row_win)
               [mkEvent player_2 (OnSquare 8); mkEvent player_1 (OnSquare 0)])
  = turnCount (run 3 row_win) /\
  gameOver (drops (run 3 row_win)
              [mkEvent player_2 (OnSquare 8); mkEvent player_1 (OnSquare 0)]) = true.
Proof.
  assert (Hgo : gameOver (run 3 row_win) = true) by (vm_compute; reflexivity).
  destruct (X10_over_is_final (run 3 row_win)
              [mkEvent player_2 (OnSquare 8); mkEvent player_1 (OnSquare 0)] Hgo)
    as (Hs & Hl & Ht & _ & _ & Ho & _).
  by split_and!.
Defined.

(** The status after the game [drawn_game]. *)
Lemma X13_status_fits_witness :
  reachable 3 (run 3 drawn_game) /\ status_fits (run 3 drawn_game).
Proof.
  pose proof (reachable_run 3 drawn_game) as H.
  split; [exact H|]. exact (X13_status_fits 3 (run 3 drawn_game) H).
Defined.

(** Player one takes the free centre as the third move. *)
Lemma X14_legal_move_witness :
  (1 <= 3 /\ reachable 3 (run 3 opening) /\ gameOver (run 3 opening) = false /\
   piece_value player_1 = currentPlayer (run 3 opening) /\
   (forall sq, squares (run 3 opening) !! cell 3 1 1 = Some sq -> occupant sq = None)) /\
  (exists sq', squares (act (run 3 opening) (place 3 player_1 1 1)) !! cell 3 1 1 = Some sq' /\
               data_x sq' = 1 /\ data_y sq' = 1 /\ childNodes sq' = [player_1]) /\
  turnCount (act (run 3 opening) (place 3 player_1 1 1)) = turnCount (run 3 opening) + 1.
Proof.
  assert (H1 : 1 <= 3) by lia.
  pose proof (reachable_run 3 opening) as H2.
  assert (H3 : gameOver (run 3 opening) = false) by (vm_compute; reflexivity).
  assert (H4 : piece_value player_1 = currentPlayer (run 3 opening))
    by (vm_compute; reflexivity).
  assert (H5 : 0 <= 1 < 3) by lia.
  assert (H6 : forall sq, squares (run 3 opening) !! cell 3 1 1 = Some sq ->
                          occupant sq = None).
  { intros sq Hsq. vm_compute in Hsq. injection Hsq as <-. reflexivity. }
  destruct (X14_legal_move 3 (run 3 opening) player_1 1 1 H1 H2 H3 H4 H5 H5 H6)
    as (Hsq & Ht & _).
  split; [by split_and!|]. split; [exact Hsq|exact Ht].
Defined.
